(** * Contract analysis and risk assessment: clause segmentation and risk scoring

    A shallow embedding of the clause pipeline of the contract assistant:

    - [utils/nlp_processor.py]  [NLPProcessor.extract_clauses],
      [extract_entities]
    - [utils/risk_analyzer.py]  [RiskAnalyzer.assess_clause_risk],
      [get_risk_category], [calculate_overall_risk], [explain_clause],
      [suggest_alternative]
    - [app.py]                  the per-clause analysis loop and the risk
      breakdown
    - [utils/document_parser.py]  [DocumentParser.parse_file] and the
      translation in chunks
    - [utils/template_generator.py]  [generate_template], the partner
      sections and the flowables of [export_to_pdf]

    Text.  A Python [str] is a sequence of code points; here it is a list
    of 8-bit characters read as the code points U+0000..U+00FF.  On that
    range [str.lower], [str.strip], and the classes [\s], [\d], [.] of the
    [re] module are exactly the functions below.  The provider messages
    open with a warning sign that lies outside this range; it is carried
    as its UTF-8 bytes, and nothing below inspects it.

    Libraries.  [re.split] and [re.search] are modelled by a backtracking
    matcher over the fragment of the pattern language that the source
    uses: a sequence of one-character classes, each taken once or under a
    greedy [+] or [*].  NLTK's [sent_tokenize], spaCy, the OpenAI client,
    the translator, the readers of PDF and Word files and the PDF builder
    are outside the repository and enter as parameters. *)

From Stdlib Require Import Strings.Ascii Strings.String.
From Stdlib Require Import Bool Arith ZArith Lia QArith.
From Stdlib Require Import Lists.List.
Import ListNotations.

Close Scope Q_scope.
Open Scope nat_scope.
Open Scope list_scope.

(* ================================================================== *)
(** * Python strings *)
(* ================================================================== *)

Module Py.

Definition str := list ascii.

(** A literal of the source. *)
Definition lit (s : string) : str := list_ascii_of_string s.

Definition ord (c : ascii) : nat := nat_of_ascii c.

Definition between (lo hi n : nat) : bool := (lo <=? n) && (n <=? hi).

(** [str.isspace] on one character: TAB..CR, FS..US, SPACE, NEL, NBSP.  The
    class [\s] of a [str] pattern is the same set. *)
Definition isspace (c : ascii) : bool :=
  let n := ord c in
  between 9 13 n || between 28 32 n || (n =? 133) || (n =? 160).

(** [\d]: the decimal digits. *)
Definition isdecimal (c : ascii) : bool := between 48 57 (ord c).

(** Upper-case letters of the range: A..Z and the accented capitals
    U+00C0..U+00DE without the multiplication sign U+00D7. *)
Definition isupper (c : ascii) : bool :=
  let n := ord c in
  between 65 90 n || (between 192 222 n && negb (n =? 215)).

Definition lower_char (c : ascii) : ascii :=
  if isupper c then ascii_of_nat (ord c + 32) else c.

(** [s.lower()] *)
Definition lower (s : str) : str := map lower_char s.

Definition eqc (a b : ascii) : bool := Ascii.eqb a b.

(** [s.lstrip()], [s.rstrip()], [s.strip()] with no argument. *)
Fixpoint lstrip (s : str) : str :=
  match s with
  | c :: s' => if isspace c then lstrip s' else s
  | [] => []
  end.

Definition rstrip (s : str) : str := rev (lstrip (rev s)).

Definition strip (s : str) : str := rstrip (lstrip s).

(** [s.startswith(p)] *)
Fixpoint startswith (s p : str) {struct p} : bool :=
  match p, s with
  | [], _ => true
  | a :: p', b :: s' => eqc a b && startswith s' p'
  | _ :: _, [] => false
  end.

(** [s.endswith(p)] *)
Definition endswith (s p : str) : bool := startswith (rev s) (rev p).

(** [s.endswith((p1, p2, ...))]: some suffix of the tuple. *)
Definition endswith_any (s : str) (ps : list str) : bool :=
  existsb (endswith s) ps.

(** [needle in hay] *)
Fixpoint contains (hay needle : str) : bool :=
  startswith hay needle ||
  match hay with
  | [] => false
  | _ :: hay' => contains hay' needle
  end.

(** [sep.join(parts)] *)
Fixpoint join (sep : str) (parts : list str) : str :=
  match parts with
  | [] => []
  | [p] => p
  | p :: rest => p ++ sep ++ join sep rest
  end.

(** [s[:n]] for [n >= 0] *)
Definition slice_to (n : nat) (s : str) : str := firstn n s.

(** Lower-case letters of the range: a..z, the two ordinal indicators, the
    micro sign, and U+00DF..U+00FF without the division sign U+00F7. *)
Definition islower (c : ascii) : bool :=
  let n := ord c in
  between 97 122 n || (n =? 170) || (n =? 181) || (n =? 186)
  || (between 223 255 n && negb (n =? 247)).

(** [s.isupper()]: no lower-case letter and at least one upper-case one. *)
Definition str_isupper (s : str) : bool :=
  forallb (fun c => negb (islower c)) s && existsb isupper s.

(** [s.split(sep)] for a separator of one character. *)
Fixpoint split_on (sep : ascii) (s : str) : list str :=
  match s with
  | [] => [[]]
  | c :: s' =>
      if eqc c sep then [] :: split_on sep s'
      else match split_on sep s' with
           | line :: lines => (c :: line) :: lines
           | [] => [[c]]
           end
  end.

(** [s[i:j]] for [0 <= i <= j] *)
Definition slice (i j : nat) (s : str) : str := firstn (j - i) (skipn i s).

(** [range(0, stop, step)] for [step > 0] *)
Definition range_step (stop step : nat) : list nat :=
  map (fun q => q * step) (seq 0 ((stop + step - 1) / step)).

End Py.

(* ================================================================== *)
(** * The [re] module, on the patterns of the source *)
(* ================================================================== *)

Module Re.
Import Py.

(** One-character classes.  [LitI] is a literal compiled under
    [re.IGNORECASE]. *)
Inductive charset : Type :=
| Lit (c : ascii)
| LitI (c : ascii)
| Digit
| Space
| Range (lo hi : ascii)
| Dot.

Inductive quant : Type := One | Plus | Star.

Definition regex := list (charset * quant).

Definition accepts (cs : charset) (x : ascii) : bool :=
  match cs with
  | Lit c => eqc x c
  | LitI c => eqc (lower_char x) (lower_char c)
  | Digit => isdecimal x
  | Space => isspace x
  | Range lo hi => between (ord lo) (ord hi) (ord x)
  | Dot => negb (eqc x "010"%char)
  end.

(** A greedy repetition of [cs] followed by the rest of the pattern [k]:
    take one more character first, give it back when the rest fails. *)
Fixpoint greedy (cs : charset) (k : str -> option nat) (t : str) : option nat :=
  match t with
  | x :: t' =>
      if accepts cs x then
        match greedy cs k t' with
        | Some n => Some (S n)
        | None => k t
        end
      else k t
  | [] => k []
  end.

(** [match_here p t]: the length of the match of [p] that the backtracking
    matcher finds at the head of [t]. *)
Fixpoint match_here (p : regex) (t : str) {struct p} : option nat :=
  match p with
  | [] => Some 0
  | (cs, One) :: p' =>
      match t with
      | x :: t' => if accepts cs x then option_map S (match_here p' t') else None
      | [] => None
      end
  | (cs, Plus) :: p' =>
      match t with
      | x :: t' =>
          if accepts cs x then option_map S (greedy cs (match_here p') t') else None
      | [] => None
      end
  | (cs, Star) :: p' => greedy cs (match_here p') t
  end.

(** [re.search(p, t)] as a truth value: a match at some position. *)
Fixpoint search (p : regex) (t : str) : bool :=
  match match_here p t with
  | Some _ => true
  | None =>
      match t with
      | [] => false
      | _ :: t' => search p t'
      end
  end.

(** [re.split(p, t)] for a pattern with no group and no empty match: scan
    left to right; at a position where [p] matches, close the running
    fragment and jump over the match.  [skip] counts the characters of
    the current match still to jump over; [cur] is the running fragment,
    last character first. *)
Fixpoint split_from (p : regex) (t : str) (skip : nat) (cur : str) : list str :=
  match t with
  | [] => [rev cur]
  | x :: t' =>
      match skip with
      | S k => split_from p t' k cur
      | O =>
          match match_here p t with
          | Some (S n) => rev cur :: split_from p t' n []
          | _ => split_from p t' 0 (x :: cur)
          end
      end
  end.

Definition split (p : regex) (t : str) : list str := split_from p t 0 [].

(** Pattern text to pattern: a run of literal characters. *)
Definition chars (s : string) : regex := map (fun c => (Lit c, One)) (lit s).
Definition charsI (s : string) : regex := map (fun c => (LitI c, One)) (lit s).

Definition NL : charset := Lit "010"%char.

End Re.

(* ================================================================== *)
(** * [utils/nlp_processor.py] *)
(* ================================================================== *)

Module NLPProcessor.
Import Py Re.

(** The patterns of [clause_patterns], in the order of the source. *)
Definition numbered : regex :=          (* \n\d+\.\s *)
  [(NL, One); (Digit, Plus); (Lit ".", One); (Space, One)].
Definition lettered : regex :=          (* \n\([a-z]\)\s *)
  [(NL, One); (Lit "(", One); (Range "a" "z", One); (Lit ")", One); (Space, One)].
Definition section_header : regex :=    (* \nSECTION\s+\d+ *)
  (NL, One) :: chars "SECTION" ++ [(Space, Plus); (Digit, Plus)].
Definition article_header : regex :=    (* \nARTICLE\s+\d+ *)
  (NL, One) :: chars "ARTICLE" ++ [(Space, Plus); (Digit, Plus)].
Definition nested : regex :=            (* \n\d+\.\d+\. *)
  [(NL, One); (Digit, Plus); (Lit ".", One); (Digit, Plus); (Lit ".", One)].

Definition clause_patterns : list regex :=
  [numbered; lettered; section_header; article_header; nested].

(** The clean-up loop: strip each fragment, keep it when longer than 50. *)
Definition clean_step (cleaned_clauses : list str) (clause : str) : list str :=
  let clause := strip clause in
  if 50 <? length clause then cleaned_clauses ++ [clause] else cleaned_clauses.

Definition cleaned (clauses : list str) : list str :=
  fold_left clean_step clauses [].

(** The loop over [clause_patterns]: [Some] is the early [return]. *)
Fixpoint split_by_patterns (patterns : list regex) (contract_text : str)
  : option (list str) :=
  match patterns with
  | [] => None
  | pattern :: rest =>
      let clauses := Re.split pattern contract_text in
      if 1 <? length clauses then
        let cleaned_clauses := cleaned clauses in
        if 3 <? length cleaned_clauses then Some cleaned_clauses
        else split_by_patterns rest contract_text
      else split_by_patterns rest contract_text
  end.

(** The fallback loop; the state is [(clauses, current_clause)]. *)
Definition group_step (st : list str * list str) (sentence : str)
  : list str * list str :=
  let (clauses, current_clause) := st in
  let current_clause := current_clause ++ [sentence] in
  if (3 <=? length current_clause) || endswith_any sentence [lit ":"; lit ";"]
  then (clauses ++ [join (lit " ") current_clause], [])
  else (clauses, current_clause).

Definition group_sentences (sentences : list str) : list str :=
  let (clauses, current_clause) := fold_left group_step sentences ([], []) in
  match current_clause with
  | [] => clauses
  | _ :: _ => clauses ++ [join (lit " ") current_clause]
  end.

Section Tokenizer.

(** [nltk.tokenize.sent_tokenize] *)
Variable sent_tokenize : str -> list str.

Definition extract_clauses (contract_text : str) : list str :=
  match split_by_patterns clause_patterns contract_text with
  | Some cleaned_clauses => cleaned_clauses
  | None => group_sentences (sent_tokenize contract_text)
  end.

End Tokenizer.




Section Spacy.

(** [self.nlp(text).ents], as pairs [(ent.text, ent.label_)] *)
Variable nlp_ents : str -> list (str * str).


End Spacy.

End NLPProcessor.

(* ================================================================== *)
(** * The provider, and the effects of calling it *)
(* ================================================================== *)

Module OpenAI.
Import Py.

(** The arguments of [client.chat.completions.create]. *)
Record Request : Type := mkRequest {
  model : str;
  content : str;             (* the one user message *)
  temperature : Q;
  max_tokens : nat
}.

(** What a call comes back with: a response, of which the source reads
    [choices[i].message.content] (which may be [None]), or an exception,
    of which the source reads the class name. *)
Inductive Reply : Type :=
| Response (choices : list (option str))
| Raises (error_name : str).

(** The world: the provider answers a request knowing the requests made
    before it; [calls] records them in order. *)
Record World : Type := mkWorld {
  provider : list Request -> Request -> Reply;
  calls : list Request
}.

(** Computations that call the provider and may raise an [Exception]. *)
Inductive Outcome (A : Type) : Type :=
| Returns (a : A)
| Raised (error_name : str).
Arguments Returns {A} a.
Arguments Raised {A} error_name.

Definition M (A : Type) : Type := World -> Outcome A * World.

Definition ret {A} (a : A) : M A := fun w => (Returns a, w).

Definition raise {A} (error_name : str) : M A := fun w => (Raised error_name, w).

Definition bind {A B} (m : M A) (k : A -> M B) : M B :=
  fun w =>
    match m w with
    | (Returns a, w') => k a w'
    | (Raised e, w') => (Raised e, w')
    end.

(** [try: body except Exception as e: handler(type(e).__name__)] *)
Definition try_except {A} (body : M A) (handler : str -> M A) : M A :=
  fun w =>
    match body w with
    | (Returns a, w') => (Returns a, w')
    | (Raised e, w') => handler e w'
    end.

Notation "x <- m ;; k" := (bind m (fun x => k))
  (at level 61, m at next level, right associativity).

(** An [OpenAI(api_key=...)] object. *)
Record Client : Type := mkClient { api_key : str }.

(** [client.chat.completions.create(...)]: one request to the provider. *)
Definition create (c : Client) (req : Request) : M (list (option str)) :=
  fun w =>
    let w' := {| provider := provider w; calls := calls w ++ [req] |} in
    match provider w (calls w) req with
    | Response choices => (Returns choices, w')
    | Raises e => (Raised e, w')
    end.

(** [response.choices[0].message.content.strip()] *)
Definition first_content_stripped (choices : list (option str)) : M str :=
  match choices with
  | Some text :: _ => ret (strip text)
  | None :: _ => raise (lit "AttributeError")
  | [] => raise (lit "IndexError")
  end.

End OpenAI.

(* ================================================================== *)
(** * [utils/document_parser.py] *)
(* ================================================================== *)

Module DocumentParser.
Import Py.
Import OpenAI (Outcome, Returns, Raised).

(** [GoogleTranslator(source='hi', target='en')]: what [translate] gives
    for a text, knowing the texts sent before it: a string, or an
    exception. *)
Record Translator : Type := mkTranslator {
  translate : list str -> str -> Outcome str
}.

Record t : Type := mkDocumentParser { translator : option Translator }.

(** An uploaded file, as the three readers of the source see it: PyPDF2
    (the text of each page), python-docx (the text of each paragraph) and
    [file.read().decode('utf-8')]; each may raise. *)
Record UploadedFile : Type := mkFile {
  name : str;
  pdf_pages : Outcome (list str);
  docx_paragraphs : Outcome (list str);
  utf8_text : Outcome str
}.

Definition _parse_pdf (file : UploadedFile) : Outcome str :=
  match pdf_pages file with
  | Returns pages => Returns (fold_left (fun text page => text ++ page) pages [])
  | Raised e => Raised e
  end.

Definition _parse_docx (file : UploadedFile) : Outcome str :=
  match docx_paragraphs file with
  | Returns paragraphs => Returns (join ["010"%char] paragraphs)
  | Raised e => Raised e
  end.

(** [[text[i:i+4000] for i in range(0, len(text), 4000)]] *)
Definition chunks_of (text : str) : list str :=
  map (fun i => slice i (i + 4000) text) (range_step (length text) 4000).

(** The loop over the chunks; [sent] are the texts sent to the translator
    so far.  An exception leaves the loop. *)
Fixpoint translate_chunks (tr : Translator) (chunks translated_chunks sent : list str)
  : Outcome (list str) * list str :=
  match chunks with
  | [] => (Returns translated_chunks, sent)
  | chunk :: rest =>
      match translate tr sent chunk with
      | Returns translated_text =>
          translate_chunks tr rest (translated_chunks ++ [translated_text]) (sent ++ [chunk])
      | Raised e => (Raised e, sent ++ [chunk])
      end
  end.

Section Import_guard.

(** Whether [from deep_translator import GoogleTranslator] succeeded. *)
Variable HAS_TRANSLATOR : bool.

Definition init (google : Translator) : t :=
  {| translator := if HAS_TRANSLATOR then Some google else None |}.

Definition _translate_hindi_to_english (self : t) (text : str) (sent : list str)
  : str * list str :=
  match (if HAS_TRANSLATOR then translator self else None) with
  | None => (text, sent)
  | Some tr =>
      if 4000 <? length text then
        match translate_chunks tr (chunks_of text) [] sent with
        | (Returns translated_chunks, sent') => (join (lit " ") translated_chunks, sent')
        | (Raised _, sent') => (text, sent')
        end
      else
        match translate tr sent text with
        | Returns translated_text => (translated_text, sent ++ [text])
        | Raised _ => (text, sent ++ [text])
        end
  end.

Definition parse_file (self : t) (file : UploadedFile) (language : str) (sent : list str)
  : Outcome str * list str :=
  let text :=
    if endswith (name file) (lit ".pdf") then _parse_pdf file
    else if endswith (name file) (lit ".docx") then _parse_docx file
    else if endswith (name file) (lit ".txt") then utf8_text file
    else Returns [] in
  match text with
  | Raised e => (Raised e, sent)
  | Returns text =>
      if (if list_eq_dec ascii_dec language (lit "Hindi") then true else false) then
        let (text, sent') := _translate_hindi_to_english self text sent in
        (Returns text, sent')
      else (Returns text, sent)
  end.

End Import_guard.

End DocumentParser.

(* ================================================================== *)
(** * [utils/template_generator.py] *)
(* ================================================================== *)

Module TemplateGenerator.
Import Py.
Import OpenAI (Outcome, Returns, Raised).

(** A parameter value: a string, or the list of partner names. *)
Inductive Value : Type :=
| VStr (s : str)
| VList (l : list str).

(** A dict with [str] keys, in insertion order. *)
Definition Params := list (str * Value).

Definition key_eqb (a b : str) : bool :=
  if list_eq_dec ascii_dec a b then true else false.

(** [key in d] and [d[key]] *)
Fixpoint lookup {V : Type} (d : list (str * V)) (key : str) : option V :=
  match d with
  | [] => None
  | (k, v) :: d' => if key_eqb k key then Some v else lookup d' key
  end.

(** [d[key] = value] *)
Fixpoint set_item {V : Type} (d : list (str * V)) (key : str) (value : V)
  : list (str * V) :=
  match d with
  | [] => [(key, value)]
  | (k, v) :: d' =>
      if key_eqb k key then (k, value) :: d' else (k, v) :: set_item d' key value
  end.

(** [d.update(other)] *)
Definition update {V : Type} (d other : list (str * V)) : list (str * V) :=
  fold_left (fun d kv => set_item d (fst kv) (snd kv)) other d.

(** The object: the dict of template functions and the default values. *)
Record t : Type := mkTemplateGenerator {
  templates : list (str * (Params -> Outcome str));
  default_params : Params
}.

Definition quote : str := ["039"%char].

Definition generate_template (self : t) (template_type : str)
  (custom_params : option Params) : Outcome str :=
  match lookup (templates self) template_type with
  | None =>
      Raised (lit "ValueError: Template type " ++ quote ++ template_type ++ quote
              ++ lit " not supported")
  | Some template =>
      let params := default_params self in
      let params :=
        match custom_params with
        | Some (kv :: more) => update params (kv :: more)
        | Some [] | None => params
        end in
      template params
  end.

(** The flowables that [export_to_pdf] hands to reportlab: what
    [Spacer(width, height)] and [Paragraph(text, style)] were built
    from. *)
Inductive Flowable : Type :=
| Spacer (width height : nat)
| Paragraph (text : str) (style : str).

Section Reportlab.

(** [Paragraph(text, style)] parses the markup of its text when it is
    built: the exception that it raises for a text and a style, if any. *)
Variable paragraph_error : str -> str -> option str.

Definition new_paragraph (text style : str) : Outcome Flowable :=
  match paragraph_error text style with
  | None => Returns (Paragraph text style)
  | Some e => Raised e
  end.

(** The body of [for line in lines]: the flowable that is appended. *)
Definition flowable_of (line : str) : Outcome Flowable :=
  if (match strip line with [] => true | _ :: _ => false end) then Returns (Spacer 1 12)
  else if str_isupper line && (20 <? length (strip line))
       then new_paragraph (strip line) (lit "TitleStyle")
       else new_paragraph (strip line) (lit "ContractStyle").

(** The loop; an exception leaves it, and with it [export_to_pdf]. *)
Fixpoint content_from (lines : list str) (content : list Flowable)
  : Outcome (list Flowable) :=
  match lines with
  | [] => Returns content
  | line :: rest =>
      match flowable_of line with
      | Returns flowable => content_from rest (content ++ [flowable])
      | Raised e => Raised e
      end
  end.

(** The list [content] of [export_to_pdf], as it is when the loop is
    done; [doc.build(content)] comes after it. *)
Definition pdf_content (template_content : str) : Outcome (list Flowable) :=
  let lines := split_on "010"%char (strip template_content) in
  content_from lines [].

End Reportlab.

(** The rupee sign, as its UTF-8 bytes. *)
Definition rupee : str := map ascii_of_nat [226; 130; 185].

(** [_generate_partner_contributions] *)
Definition _generate_partner_contributions (partner_names : list str) : str :=
  fold_left
    (fun contributions partner =>
       contributions ++ lit "       " ++ partner ++ lit ": " ++ rupee
       ++ lit "[Amount] ([Percentage]%)" ++ ["010"%char])
    partner_names [].

(** [_generate_partner_signatures] *)
Definition _generate_partner_signatures (partner_names : list str) : str :=
  fold_left
    (fun signatures partner =>
       signatures ++ partner ++ lit ": _________________________"
       ++ ["010"%char; "010"%char])
    partner_names [].

Section Init.

(** The seven template methods, and [datetime.now().strftime("%d %B, %Y")]. *)
Variables _generate_employment_agreement _generate_vendor_contract
  _generate_lease_agreement _generate_partnership_deed _generate_service_contract
  _generate_nda_agreement _generate_consultancy_agreement : Params -> Outcome str.
Variable today : str.

Definition init : t :=
  {| templates :=
       [ (lit "employment", _generate_employment_agreement);
         (lit "vendor", _generate_vendor_contract);
         (lit "lease", _generate_lease_agreement);
         (lit "partnership", _generate_partnership_deed);
         (lit "service", _generate_service_contract);
         (lit "nda", _generate_nda_agreement);
         (lit "consultancy", _generate_consultancy_agreement) ];
     default_params :=
       [ (lit "company_name", VStr (lit "ABC Enterprises"));
         (lit "employee_name", VStr (lit "John Doe"));
         (lit "vendor_name", VStr (lit "XYZ Suppliers"));
         (lit "property_address", VStr (lit "123 Business Street, Mumbai"));
         (lit "partner_names", VList [lit "Partner A"; lit "Partner B"]);
         (lit "service_description", VStr (lit "Digital Marketing Services"));
         (lit "start_date", VStr today);
         (lit "duration", VStr (lit "12 months"));
         (lit "compensation", VStr (rupee ++ lit "50,000 per month"));
         (lit "jurisdiction", VStr (lit "Mumbai, Maharashtra"));
         (lit "confidentiality_period", VStr (lit "3 years")) ] |}.

End Init.

End TemplateGenerator.

(* ================================================================== *)
(** * The result rows *)
(* ================================================================== *)

Module Report.
Import Py.

(** One dict of [results] in [app.py]; the fields are its keys
    ["Clause #"], ["Text"], ["Risk Level"], ["Risk Category"],
    ["Explanation"], ["Suggestion"]. *)
Record ClauseAnalysis : Type := mkClauseAnalysis {
  Clause_no : nat;
  Text : str;
  Risk_Level : str;
  Risk_Category : str;
  Explanation : str;
  Suggestion : str
}.

End Report.

(* ================================================================== *)
(** * [utils/risk_analyzer.py] *)
(* ================================================================== *)

Module RiskAnalyzer.
Import Py Re OpenAI Report.

(** [self.risk_patterns]: a dict with the three keys of the source. *)
Record RiskPatterns : Type := mkRiskPatterns {
  high_risk : list regex;
  medium_risk : list regex;
  low_risk : list regex
}.

Record t : Type := mkRiskAnalyzer {
  client : option Client;
  risk_patterns : RiskPatterns;
  risk_categories : list (str * list str)   (* a dict, in insertion order *)
}.

Definition ANY : charset * quant := (Dot, Star).   (* .* *)

Definition default_risk_patterns : RiskPatterns :=
  {| high_risk :=
       [ charsI "unilateral termination";
         charsI "exclusive jurisdiction";
         charsI "indemnify" ++ ANY :: charsI "all losses";
         charsI "perpetual license";
         charsI "irrevocable" ++ ANY :: charsI "right";
         charsI "automatic renewal";
         charsI "liquidated damages" ++ ANY :: charsI "excessive";
         charsI "without cause" ];
     medium_risk :=
       [ charsI "confidentiality" ++ ANY :: charsI "indefinite";
         charsI "non-compete" ++ ANY :: charsI "2 years";
         charsI "arbitration" ++ ANY :: charsI "company" ++ ANY :: charsI "venue";
         charsI "force majeure" ++ ANY :: charsI "broad" ];
     low_risk :=
       [ charsI "mutual agreement";
         charsI "reasonable" ++ ANY :: charsI "notice";
         charsI "good faith";
         charsI "pro rata" ] |}.

Definition default_risk_categories : list (str * list str) :=
  [ (lit "Penalty Clauses", map lit ["penalty"; "liquidated damages"; "fine"; "forfeit"]%string);
    (lit "Indemnity", map lit ["indemnify"; "hold harmless"; "defend"]%string);
    (lit "Termination", map lit ["terminate"; "cancel"; "expire"; "renewal"]%string);
    (lit "Jurisdiction", map lit ["jurisdiction"; "venue"; "governing law"]%string);
    (lit "IP Rights",
      map lit ["intellectual property"; "copyright"; "patent"; "trade secret"]%string);
    (lit "Confidentiality", map lit ["confidential"; "non-disclosure"; "proprietary"]%string) ].

Section Import_guard.

(** Whether [from openai import OpenAI] succeeded. *)
Variable HAS_OPENAI : bool.

(** [__init__]; [api_key] is [os.environ.get("OPENAI_API_KEY")]. *)
Definition init (api_key : option str) : t :=
  {| client :=
       if HAS_OPENAI then
         match api_key with
         | Some (c :: k) => Some (mkClient (c :: k))
         | Some [] | None => None
         end
       else None;
     risk_patterns := default_risk_patterns;
     risk_categories := default_risk_categories |}.

End Import_guard.

(** [for pattern in patterns: if re.search(pattern, text): return True] *)
Fixpoint any_search (patterns : list regex) (text : str) : bool :=
  match patterns with
  | [] => false
  | pattern :: rest => if search pattern text then true else any_search rest text
  end.

Definition assess_clause_risk (self : t) (clause_text : str) : str :=
  let clause_lower := lower clause_text in
  if any_search (high_risk (risk_patterns self)) clause_lower then lit "High"
  else if any_search (medium_risk (risk_patterns self)) clause_lower then lit "Medium"
  else lit "Low".

(** [for keyword in keywords: if keyword in text: return True] *)
Fixpoint any_keyword (keywords : list str) (text : str) : bool :=
  match keywords with
  | [] => false
  | keyword :: rest => if contains text keyword then true else any_keyword rest text
  end.

Fixpoint first_category (categories : list (str * list str)) (text : str) : option str :=
  match categories with
  | [] => None
  | (category, keywords) :: rest =>
      if any_keyword keywords text then Some category else first_category rest text
  end.

Definition get_risk_category (self : t) (clause_text : str) : str :=
  let clause_lower := lower clause_text in
  match first_category (risk_categories self) clause_lower with
  | Some category => category
  | None => lit "General"
  end.

(** A dict with [str] keys, and [d.get(key, default)]. *)
Definition str_eqb (a b : str) : bool :=
  if list_eq_dec ascii_dec a b then true else false.

Fixpoint dict_get {V : Type} (d : list (str * V)) (key : str) (default : V) : V :=
  match d with
  | [] => default
  | (k, v) :: d' => if str_eqb k key then v else dict_get d' key default
  end.

Definition risk_scores : list (str * nat) :=
  [(lit "High", 3); (lit "Medium", 2); (lit "Low", 1)].

(** [avg_score] is a float in the source.  It is the correctly rounded
    quotient of two integers and lies in [1, 3]; the thresholds 2.5 and
    1.5 are floats, and for fewer than 2^51 results the rounded quotient
    stands on the same side of them as the exact one, which is what is
    compared here. *)
Definition calculate_overall_risk (self : t) (results : list ClauseAnalysis) : str :=
  let total_score :=
    fold_left (fun total_score result =>
                 total_score + dict_get risk_scores (Risk_Level result) 1)
              results 0 in
  let avg_score : Q :=
    match results with
    | [] => 1%Q
    | _ :: _ => (Z.of_nat total_score # Pos.of_nat (length results))%Q
    end in
  if Qle_bool (5 # 2) avg_score then lit "High Risk"
  else if Qle_bool (3 # 2) avg_score then lit "Medium Risk"
  else lit "Low Risk".

(** The literals of the two provider functions. *)
Definition warning_sign : str := map ascii_of_nat [226; 154; 160; 239; 184; 143].
Definition dquote : str := ["034"%char].
Definition newline : str := ["010"%char].
Definition indent : str := lit "        ".

Definition msg_not_configured_explain : str :=
  warning_sign ++ lit " OpenAI API not configured. Set OPENAI_API_KEY environment variable to enable AI explanations.".
Definition msg_not_configured_suggest : str :=
  warning_sign ++ lit " OpenAI API not configured. Set OPENAI_API_KEY environment variable to enable suggestions.".
Definition msg_auth_failed : str :=
  warning_sign ++ lit " OpenAI authentication failed. Check your OPENAI_API_KEY is valid.".
Definition msg_rate_limit : str :=
  warning_sign ++ lit " OpenAI rate limit exceeded. Please try again later.".
Definition msg_no_explanation (error_name : str) : str :=
  warning_sign ++ lit " Unable to generate explanation: " ++ error_name.
Definition msg_no_suggestion (error_name : str) : str :=
  warning_sign ++ lit " Suggestions unavailable: " ++ error_name.

Definition explain_prompt (clause_text : str) : str :=
  join newline
    [ [];
      indent ++ lit "Explain this legal clause in simple business English:";
      indent;
      indent ++ dquote ++ clause_text ++ dquote;
      indent;
      indent ++ lit "Explain in 2-3 sentences what this means for a business owner.";
      indent ++ lit "Focus on obligations, rights, and practical implications.";
      indent ].

Definition suggest_prompt (clause_text : str) : str :=
  join newline
    [ [];
      indent ++ lit "This is a potentially risky contract clause:";
      indent;
      indent ++ dquote ++ clause_text ++ dquote;
      indent;
      indent ++ lit "Suggest a more balanced alternative that protects both parties.";
      indent ++ lit "Provide 1-2 alternative phrasings in plain English.";
      indent ].

Section Provider_calls.

Variable HAS_OPENAI : bool.

Definition explain_clause (self : t) (clause_text : str) : M str :=
  match (if HAS_OPENAI then client self else None) with
  | None => ret msg_not_configured_explain
  | Some the_client =>
      let prompt := explain_prompt clause_text in
      try_except
        (response <- create the_client
                       {| model := lit "gpt-4"; content := prompt;
                          temperature := (3 # 10)%Q; max_tokens := 150 |} ;;
         first_content_stripped response)
        (fun error_name =>
           if contains error_name (lit "AuthenticationError") then ret msg_auth_failed
           else if contains error_name (lit "RateLimitError") then ret msg_rate_limit
           else ret (msg_no_explanation error_name))
  end.

Definition suggest_alternative (self : t) (clause_text : str) : M str :=
  match (if HAS_OPENAI then client self else None) with
  | None => ret msg_not_configured_suggest
  | Some the_client =>
      let prompt := suggest_prompt clause_text in
      try_except
        (response <- create the_client
                       {| model := lit "gpt-4"; content := prompt;
                          temperature := (3 # 10)%Q; max_tokens := 200 |} ;;
         first_content_stripped response)
        (fun error_name =>
           if contains error_name (lit "AuthenticationError") then ret msg_auth_failed
           else if contains error_name (lit "RateLimitError") then ret msg_rate_limit
           else ret (msg_no_suggestion error_name))
  end.

End Provider_calls.

End RiskAnalyzer.

(* ================================================================== *)
(** * [app.py]: the analysis of one contract *)
(* ================================================================== *)

Module App.
Import Py OpenAI Report.

Section Run.

Variable sent_tokenize : str -> list str.
Variable HAS_OPENAI : bool.

(** The body of [for i, clause in enumerate(clauses)], from index [i] on;
    [results] is the list built so far. *)
Fixpoint analyze_from (analyzer : RiskAnalyzer.t) (i : nat) (clauses : list str)
  (results : list ClauseAnalysis) : M (list ClauseAnalysis) :=
  match clauses with
  | [] => ret results
  | clause :: rest =>
      let risk_score := RiskAnalyzer.assess_clause_risk analyzer clause in
      explanation <- RiskAnalyzer.explain_clause HAS_OPENAI analyzer clause ;;
      suggestion <- RiskAnalyzer.suggest_alternative HAS_OPENAI analyzer clause ;;
      analyze_from analyzer (S i) rest
        (results ++
           [ {| Clause_no := i + 1;
                Text := slice_to 100 clause ++ lit "...";
                Risk_Level := risk_score;
                Risk_Category := RiskAnalyzer.get_risk_category analyzer clause;
                Explanation := explanation;
                Suggestion := suggestion |} ])
  end.

Definition analyze_clauses (analyzer : RiskAnalyzer.t) (clauses : list str)
  : M (list ClauseAnalysis) :=
  analyze_from analyzer 0 clauses [].

(** The [analyze_button] branch up to the overall verdict: the rows and
    [overall_risk]. *)
Definition analyze_contract (analyzer : RiskAnalyzer.t) (contract_text : str)
  : M (list ClauseAnalysis * str) :=
  let clauses := NLPProcessor.extract_clauses sent_tokenize contract_text in
  results <- analyze_clauses analyzer clauses ;;
  let overall_risk := RiskAnalyzer.calculate_overall_risk analyzer results in
  ret (results, overall_risk).

End Run.

(** The risk breakdown:
    [len([r for r in results if r["Risk Level"] == level])]. *)
Definition count_level (level : str) (results : list ClauseAnalysis) : nat :=
  length (filter (fun r => RiskAnalyzer.str_eqb (Risk_Level r) level) results).

Definition high_risk (results : list ClauseAnalysis) : nat :=
  count_level (lit "High") results.
Definition medium_risk (results : list ClauseAnalysis) : nat :=
  count_level (lit "Medium") results.
Definition low_risk (results : list ClauseAnalysis) : nat :=
  count_level (lit "Low") results.

End App.

(* ================================================================== *)
(** * What the specification speaks of *)
(* ================================================================== *)

Module Spec.
Import Py Re.

(** [needle] occurs in [hay]. *)
Definition Substring (needle hay : str) : Prop :=
  exists u v, hay = u ++ needle ++ v.

(** The words a pattern denotes. *)
Inductive Matches : regex -> str -> Prop :=
| M_nil : Matches [] []
| M_one cs p x m :
    accepts cs x = true -> Matches p m -> Matches ((cs, One) :: p) (x :: m)
| M_plus cs p x m :
    accepts cs x = true -> Matches ((cs, Star) :: p) m ->
    Matches ((cs, Plus) :: p) (x :: m)
| M_star_stop cs p m :
    Matches p m -> Matches ((cs, Star) :: p) m
| M_star_more cs p x m :
    accepts cs x = true -> Matches ((cs, Star) :: p) m ->
    Matches ((cs, Star) :: p) (x :: m).

(** What a continuation must satisfy for [p]: a result is the length of a
    prefix that [p] denotes. *)
Definition sound_for (p : regex) (k : str -> option nat) : Prop :=
  forall t n, k t = Some n -> n <= length t /\ Matches p (firstn n t).

(** The pattern matches somewhere in the text. *)
Definition Found (p : regex) (text : str) : Prop :=
  exists u m v, text = u ++ m ++ v /\ Matches p m.

(** Segmentation, structural path: the fragments of one pattern that
    survive trimming and the length test, in the words of the
    specification. *)
Definition survivors (p : regex) (text : str) : list str :=
  filter (fun fragment => 50 <? length fragment) (map strip (Re.split p text)).

(** Segmentation, fallback: a group is closed when it has 3 sentences or
    its last sentence ends with a colon or a semicolon. *)
Definition closes (group : list str) : bool :=
  (3 <=? length group) || endswith_any (last group []) [lit ":"; lit ";"].

(** No proper non-empty prefix of the group is closed. *)
Definition open_before_end (group : list str) : Prop :=
  forall k, 0 < k < length group -> closes (firstn k group) = false.

(** [Grouped sentences groups]: the groups cut the sentences, in order,
    into non-empty runs; each run ends at the first sentence that closes
    it; only the last run may be left unclosed. *)
Inductive Grouped : list str -> list (list str) -> Prop :=
| G_none : Grouped [] []
| G_trailing g :
    g <> [] -> open_before_end g -> Grouped g [g]
| G_closed g rest gs :
    g <> [] -> open_before_end g -> closes g = true ->
    Grouped rest gs -> Grouped (g ++ rest) (g :: gs).

(** Aggregate scoring: the weight of a level and the mean of a sequence. *)
Definition weight (level : str) : nat :=
  if list_eq_dec ascii_dec level (lit "High") then 3
  else if list_eq_dec ascii_dec level (lit "Medium") then 2
  else 1.

Definition mean (levels : list str) : Q :=
  match levels with
  | [] => 1%Q
  | _ :: _ =>
      (Z.of_nat (list_sum (map weight levels)) # Pos.of_nat (length levels))%Q
  end.

(** A string with a character that is no blank. *)
Definition visible (s : str) : Prop := Exists (fun c => isspace c = false) s.

(** The requests of the two provider functions. *)
Definition explain_request (clause_text : str) : OpenAI.Request :=
  {| OpenAI.model := lit "gpt-4";
     OpenAI.content := RiskAnalyzer.explain_prompt clause_text;
     OpenAI.temperature := (3 # 10)%Q;
     OpenAI.max_tokens := 150 |}.

Definition suggest_request (clause_text : str) : OpenAI.Request :=
  {| OpenAI.model := lit "gpt-4";
     OpenAI.content := RiskAnalyzer.suggest_prompt clause_text;
     OpenAI.temperature := (3 # 10)%Q;
     OpenAI.max_tokens := 200 |}.

(** The world after one more request. *)
Definition after_call (w : OpenAI.World) (req : OpenAI.Request) : OpenAI.World :=
  {| OpenAI.provider := OpenAI.provider w; OpenAI.calls := OpenAI.calls w ++ [req] |}.

(** The row of [clause] at the 1-based position [index]. *)
Definition row_of (has_openai : bool) (analyzer : RiskAnalyzer.t)
  (index : nat) (clause : str) (row : Report.ClauseAnalysis) : Prop :=
  Report.Clause_no row = index
  /\ Report.Text row = firstn 100 clause ++ lit "..."
  /\ Report.Risk_Level row = RiskAnalyzer.assess_clause_risk analyzer clause
  /\ Report.Risk_Category row = RiskAnalyzer.get_risk_category analyzer clause
  /\ (exists w w',
        RiskAnalyzer.explain_clause has_openai analyzer clause w
        = (OpenAI.Returns (Report.Explanation row), w'))
  /\ (exists w w',
        RiskAnalyzer.suggest_alternative has_openai analyzer clause w
        = (OpenAI.Returns (Report.Suggestion row), w')).

(** The rows of a sequence of clauses, the first at position [i + 1]. *)
Inductive Rows (has_openai : bool) (analyzer : RiskAnalyzer.t)
  : nat -> list str -> list Report.ClauseAnalysis -> Prop :=
| Rows_nil i : Rows has_openai analyzer i [] []
| Rows_cons i clause clauses row rows :
    row_of has_openai analyzer (i + 1) clause row ->
    Rows has_openai analyzer (S i) clauses rows ->
    Rows has_openai analyzer i (clause :: clauses) (row :: rows).

(** The loop as the provider sees it, from the clause at position [i + 1]
    on.  [Run i clauses w rows w'] reads: started in the world [w], the
    clauses are taken in order; the explanation of a clause is asked in the
    world that the clauses before it have left, its suggestion in the
    world that the explanation has left, and the next clause starts from
    the world that the suggestion has left; [w'] is the world at the end.
    The row of a clause holds what these two calls returned. *)
Inductive Run (has_openai : bool) (analyzer : RiskAnalyzer.t)
  : nat -> list str -> OpenAI.World -> list Report.ClauseAnalysis -> OpenAI.World -> Prop :=
| Run_done i w : Run has_openai analyzer i [] w [] w
| Run_clause i clause clauses w w1 w2 w' explanation suggestion rows :
    RiskAnalyzer.explain_clause has_openai analyzer clause w
    = (OpenAI.Returns explanation, w1) ->
    RiskAnalyzer.suggest_alternative has_openai analyzer clause w1
    = (OpenAI.Returns suggestion, w2) ->
    Run has_openai analyzer (S i) clauses w2 rows w' ->
    Run has_openai analyzer i (clause :: clauses) w
      ({| Report.Clause_no := i + 1;
          Report.Text := firstn 100 clause ++ lit "...";
          Report.Risk_Level := RiskAnalyzer.assess_clause_risk analyzer clause;
          Report.Risk_Category := RiskAnalyzer.get_risk_category analyzer clause;
          Report.Explanation := explanation;
          Report.Suggestion := suggestion |} :: rows) w'.

(** The style that [export_to_pdf] sets a line in, and what a line
    becomes when its paragraph can be built. *)
Definition style_of (line : str) : str :=
  if str_isupper line && (20 <? length (strip line)) then lit "TitleStyle"
  else lit "ContractStyle".

Definition laid_out (line : str) : TemplateGenerator.Flowable :=
  match strip line with
  | [] => TemplateGenerator.Spacer 1 12
  | _ :: _ => TemplateGenerator.Paragraph (strip line) (style_of line)
  end.

(** The paragraph of the line can be built, or the line needs none. *)
Definition builds (paragraph_error : str -> str -> option str) (line : str) : Prop :=
  strip line = [] \/ paragraph_error (strip line) (style_of line) = None.

(** Fragments and the markers between them, put back together. *)
Fixpoint weave (fragments separators : list str) : str :=
  match fragments, separators with
  | f :: fs, m :: ms => f ++ m ++ weave fs ms
  | f :: _, [] => f
  | [], _ => []
  end.

(** The positions of the text at which the matcher finds a marker. *)
Fixpoint occurrences (p : regex) (t : str) : nat :=
  (match match_here p t with Some (S _) => 1 | _ => 0 end)
  + match t with
    | [] => 0
    | _ :: t' => occurrences p t'
    end.


(** A numbered paragraph: digits, a dot, one blank, and the body. *)
Record Numbered : Type := mkNumbered {
  digits : str;
  blank : ascii;
  body : str
}.

Definition paragraph_of (n : Numbered) : str :=
  digits n ++ "."%char :: blank n :: body n.

Definition well_numbered (n : Numbered) : Prop :=
  digits n <> []
  /\ forallb isdecimal (digits n) = true
  /\ isspace (blank n) = true
  /\ ~ In "010"%char (body n).

End Spec.

(* ================================================================== *)
(** * Sample contracts *)
(* ================================================================== *)

Module Scenario.
Import Py.

(** The four numbered clauses of the end-to-end scenario, each padded
    beyond 50 characters. *)
Definition clause1 : str :=
  lit "1. The Employer may terminate without cause at any time during the term.".
Definition clause2 : str :=
  lit "2. Confidentiality shall be indefinite and survive the end of this agreement.".
Definition clause3 : str :=
  lit "3. Payment is due monthly within thirty days of each invoice date.".
Definition clause4 : str :=
  lit "4. Either party may renew by mutual agreement in writing before expiry.".

(** On one line, a space between the clauses, as the scenario is quoted. *)
Definition on_one_line : str := join (lit " ") [clause1; clause2; clause3; clause4].

(** Each clause on a line of its own. *)
Definition on_lines : str := join ["010"%char] [clause1; clause2; clause3; clause4].

(** A tokenizer that answers with the four clauses as four sentences. *)
Definition four_sentences (text : str) : list str :=
  [clause1; clause2; clause3; clause4].

(** A contract of five numbered clauses, the second a short one. *)
Definition with_short_clause : str :=
  join ["010"%char]
    [ lit "1. The Supplier shall deliver the goods within thirty days of the order.";
      lit "2. Zero fees.";
      lit "3. The Buyer shall pay each invoice within sixty days of its receipt.";
      lit "4. Either party may end this agreement with ninety days written notice.";
      lit "5. This agreement is governed by the laws of the place of delivery." ].

(** A provider that is never reached, or that fails every call. *)
Definition failing_world : OpenAI.World :=
  {| OpenAI.provider := fun _ _ => OpenAI.Raises (lit "RateLimitError");
     OpenAI.calls := [] |}.

(** A provider that answers every request with one choice. *)
Definition answering_world : OpenAI.World :=
  {| OpenAI.provider := fun _ _ =>
       OpenAI.Response [Some (lit "  The employer may end the contract at will. ")];
     OpenAI.calls := [] |}.

(** A provider whose answer shows how many requests it has seen before:
    one star for each. *)
Definition counting_world : OpenAI.World :=
  {| OpenAI.provider := fun earlier _ =>
       OpenAI.Response [Some (repeat "*"%char (length earlier))];
     OpenAI.calls := [] |}.

(** A translator that raises on every call, and files as they are
    uploaded. *)
Definition failing_translator : DocumentParser.Translator :=
  {| DocumentParser.translate := fun _ _ => OpenAI.Raised (lit "RequestError") |}.

(** A translator that answers with the first character of what it is
    sent, and one star for each text it was sent before; a text of 4001
    characters. *)
Definition marking_translator : DocumentParser.Translator :=
  {| DocumentParser.translate := fun sent chunk =>
       OpenAI.Returns (firstn 1 chunk ++ repeat "*"%char (length sent)) |}.

Definition long_text : str := repeat "a"%char 4000 ++ lit "b".

Definition upper_case_pdf : DocumentParser.UploadedFile :=
  {| DocumentParser.name := lit "Lease.PDF";
     DocumentParser.pdf_pages := OpenAI.Returns [lit "This lease is made on"];
     DocumentParser.docx_paragraphs := OpenAI.Raised (lit "PackageNotFoundError");
     DocumentParser.utf8_text := OpenAI.Raised (lit "UnicodeDecodeError") |}.

Definition numbered_docx : DocumentParser.UploadedFile :=
  {| DocumentParser.name := lit "supply.docx";
     DocumentParser.pdf_pages := OpenAI.Raised (lit "PdfReadError");
     DocumentParser.docx_paragraphs :=
       OpenAI.Returns
         [ lit "SUPPLY AGREEMENT";
           lit "1. The Supplier shall deliver the goods within thirty days of the order.";
           lit "2. The Buyer shall pay each invoice within sixty days of its receipt.";
           lit "3. Either party may end this agreement with ninety days written notice.";
           lit "4. This agreement is governed by the laws of the place of delivery." ];
     DocumentParser.utf8_text := OpenAI.Raised (lit "UnicodeDecodeError") |}.

(** The numbered paragraphs of [numbered_docx]. *)
Definition supply_items : list Spec.Numbered :=
  [ Spec.mkNumbered (lit "1") " "
      (lit "The Supplier shall deliver the goods within thirty days of the order.");
    Spec.mkNumbered (lit "2") " "
      (lit "The Buyer shall pay each invoice within sixty days of its receipt.");
    Spec.mkNumbered (lit "3") " "
      (lit "Either party may end this agreement with ninety days written notice.");
    Spec.mkNumbered (lit "4") " "
      (lit "This agreement is governed by the laws of the place of delivery.") ].

(** A generator whose templates only show the name of the company that
    they are given, and the head of an employment agreement. *)
Definition company_of (params : TemplateGenerator.Params) : OpenAI.Outcome str :=
  match TemplateGenerator.lookup params (lit "company_name") with
  | Some (TemplateGenerator.VStr s) => OpenAI.Returns s
  | _ => OpenAI.Raised (lit "KeyError")
  end.

Definition sample_generator : TemplateGenerator.t :=
  TemplateGenerator.init company_of company_of company_of company_of company_of
    company_of company_of (lit "01 May, 2025").

Definition agreement_head : str :=
  ["010"%char] ++ lit "EMPLOYMENT AGREEMENT" ++ ["010"%char; "010"%char]
  ++ lit "This Employment Agreement is made on 01 May, 2025" ++ ["010"%char].

(** A parser of paragraphs that takes every text, and one that refuses a
    bold tag that is never closed; a template with such a tag on its
    second line. *)
Definition takes_all (text style : str) : option str := None.

Definition refuses_open_bold (text style : str) : option str :=
  if contains text (lit "<b>") && negb (contains text (lit "</b>"))
  then Some (lit "ValueError") else None.

Definition open_bold : str :=
  lit "Fees" ++ ["010"%char] ++ lit "<b>Late payment" ++ ["010"%char] ++ lit "Term".

End Scenario.

(* ================================================================== *)
(** * Facts about strings *)
(* ================================================================== *)

Section Py_facts.
Import Py.

Lemma lower_char_idem (c : ascii) : lower_char (lower_char c) = lower_char c.
Proof.
  destruct c as [[] [] [] [] [] [] [] []]; reflexivity.
Qed.

Lemma lower_idem (s : str) : lower (lower s) = lower s.
Proof.
  unfold lower. rewrite map_map. apply map_ext. intro c. apply lower_char_idem.
Qed.

Lemma lower_app (a b : str) : lower (a ++ b) = lower a ++ lower b.
Proof. apply map_app. Qed.

Lemma eqc_true (a b : ascii) : eqc a b = true <-> a = b.
Proof. apply Ascii.eqb_eq. Qed.

Lemma startswith_spec (s p : str) :
  startswith s p = true <-> exists r, s = p ++ r.
Proof.
  revert s. induction p as [|a p IH]; intros s; simpl.
  - split; [intros _; now exists s | reflexivity].
  - destruct s as [|b s].
    + split; [discriminate | intros [r Hr]; discriminate].
    + rewrite andb_true_iff, eqc_true, IH. split.
      * intros [-> [r ->]]. now exists r.
      * intros [r Hr]. injection Hr as -> ->. split; [reflexivity | now exists r].
Qed.

Lemma contains_spec (hay needle : str) :
  contains hay needle = true <-> Spec.Substring needle hay.
Proof.
  unfold Spec.Substring. induction hay as [|c hay IH].
  - cbn [contains]. rewrite orb_false_r, startswith_spec. split.
    + intros [r Hr]. now exists [], r.
    + intros [u [v H]]. destruct u; [now exists v | discriminate].
  - cbn [contains]. rewrite orb_true_iff, startswith_spec, IH. split.
    + intros [[r Hr] | [u [v H]]].
      * now exists [], r.
      * exists (c :: u), v. now rewrite H.
    + intros [u [v H]]. destruct u as [|c' u].
      * left. now exists v.
      * right. injection H as _ H. now exists u, v.
Qed.

Lemma Substring_lower (needle hay : str) :
  Spec.Substring needle hay -> Spec.Substring (lower needle) (lower hay).
Proof.
  intros [u [v ->]]. exists (lower u), (lower v). now rewrite !lower_app.
Qed.

(** [lstrip] leaves nothing to strip on the left. *)
Lemma lstrip_head (s : str) :
  match lstrip s with
  | [] => True
  | c :: _ => isspace c = false
  end.
Proof.
  induction s as [|c s IH]; simpl; [exact I|].
  destruct (isspace c) eqn:E; [exact IH | exact E].
Qed.

Lemma lstrip_fixed (c : ascii) (s : str) :
  isspace c = false -> lstrip (c :: s) = c :: s.
Proof. intros E. simpl. now rewrite E. Qed.

Lemma lstrip_idem (s : str) : lstrip (lstrip s) = lstrip s.
Proof.
  pose proof (lstrip_head s) as H. destruct (lstrip s) as [|c r]; [reflexivity|].
  now apply lstrip_fixed.
Qed.

(** A character that is not blank, once at the end, stays at the end. *)
Lemma lstrip_keeps_last (s : str) (c : ascii) :
  isspace c = false -> exists r, lstrip (s ++ [c]) = r ++ [c].
Proof.
  intros E. induction s as [|d s IH]; simpl.
  - rewrite E. now exists [].
  - destruct (isspace d); [exact IH | now exists (d :: s)].
Qed.

Lemma rstrip_idem (s : str) : rstrip (rstrip s) = rstrip s.
Proof.
  unfold rstrip. now rewrite rev_involutive, lstrip_idem.
Qed.

Lemma lstrip_rstrip_lstrip (s : str) : lstrip (rstrip (lstrip s)) = rstrip (lstrip s).
Proof.
  pose proof (lstrip_head s) as H. destruct (lstrip s) as [|c r]; [reflexivity|].
  unfold rstrip. simpl rev.
  destruct (lstrip_keeps_last (rev r) c H) as [r' ->].
  rewrite rev_app_distr. simpl. now rewrite H.
Qed.

Lemma strip_idem (s : str) : strip (strip s) = strip s.
Proof.
  unfold strip. now rewrite lstrip_rstrip_lstrip, rstrip_idem.
Qed.

End Py_facts.

(* ================================================================== *)
(** * The matcher finds exactly the words of the pattern *)
(* ================================================================== *)

Section Re_facts.
Import Py Re Spec.

Lemma greedy_sound (cs : charset) (p : regex) (k : str -> option nat) :
  sound_for p k -> sound_for ((cs, Star) :: p) (greedy cs k).
Proof.
  intros Hk t. induction t as [|x t IH]; intros n H; simpl in H.
  - destruct (Hk _ _ H) as [Hn Hm]. split; [exact Hn | now apply M_star_stop].
  - destruct (accepts cs x) eqn:Hx.
    + destruct (greedy cs k t) as [m|] eqn:Hg.
      * injection H as <-. destruct (IH _ eq_refl) as [Hn Hm].
        split; [simpl; lia | simpl; now apply M_star_more].
      * destruct (Hk _ _ H) as [Hn Hm]. split; [exact Hn | now apply M_star_stop].
    + destruct (Hk _ _ H) as [Hn Hm]. split; [exact Hn | now apply M_star_stop].
Qed.

Lemma match_here_sound (p : regex) : sound_for p (match_here p).
Proof.
  induction p as [|[cs q] p IH]; intros t n H.
  - injection H as <-. split; [lia | constructor].
  - destruct q; simpl in H.
    + destruct t as [|x t]; [discriminate|].
      destruct (accepts cs x) eqn:Hx; [|discriminate].
      destruct (match_here p t) as [m|] eqn:Hm; [|discriminate].
      injection H as <-. destruct (IH _ _ Hm). split; [simpl; lia|].
      simpl. now apply M_one.
    + destruct t as [|x t]; [discriminate|].
      destruct (accepts cs x) eqn:Hx; [|discriminate].
      destruct (greedy cs (match_here p) t) as [m|] eqn:Hm; [|discriminate].
      injection H as <-. destruct (greedy_sound cs p _ IH _ _ Hm). split; [simpl; lia|].
      simpl. now apply M_plus.
    + now apply (greedy_sound cs p _ IH).
Qed.

Lemma greedy_stop (cs : charset) (k : str -> option nat) (t : str) :
  k t <> None -> greedy cs k t <> None.
Proof.
  intros H. destruct t as [|x t]; simpl; [exact H|].
  destruct (accepts cs x); [|exact H].
  destruct (greedy cs k t); [discriminate | exact H].
Qed.

Lemma match_here_complete (p : regex) (m : str) :
  Matches p m -> forall rest, match_here p (m ++ rest) <> None.
Proof.
  induction 1 as [|cs p x m Hx _ IH|cs p x m Hx _ IH|cs p m _ IH|cs p x m Hx _ IH];
    intros rest; simpl.
  - discriminate.
  - rewrite Hx. specialize (IH rest). destruct (match_here p (m ++ rest)); simpl; congruence.
  - rewrite Hx. specialize (IH rest). simpl in IH.
    destruct (greedy cs (match_here p) (m ++ rest)); simpl; congruence.
  - apply greedy_stop, IH.
  - rewrite Hx. specialize (IH rest). simpl in IH.
    destruct (greedy cs (match_here p) (m ++ rest)); congruence.
Qed.

(** [re.search] succeeds exactly when the pattern occurs in the text. *)
Lemma search_spec (p : regex) (t : str) : search p t = true <-> Found p t.
Proof.
  unfold Found. induction t as [|x t IH].
  - simpl. destruct (match_here p []) as [n|] eqn:H.
    + split; [intros _ | reflexivity].
      destruct (match_here_sound _ _ _ H) as [_ Hm]. exists [], (firstn n []), [].
      split; [now destruct n | exact Hm].
    + split; [discriminate|]. intros [u [m [v [E Hm]]]].
      destruct u; [|discriminate]. destruct m; [|discriminate].
      now destruct (match_here_complete _ _ Hm []).
  - simpl. destruct (match_here p (x :: t)) as [n|] eqn:H.
    + split; [intros _ | reflexivity].
      destruct (match_here_sound _ _ _ H) as [_ Hm].
      exists [], (firstn n (x :: t)), (skipn n (x :: t)).
      split; [now rewrite app_nil_l, firstn_skipn | exact Hm].
    + rewrite IH. split.
      * intros [u [m [v [E Hm]]]]. exists (x :: u), m, v. now rewrite E.
      * intros [u [m [v [E Hm]]]]. destruct u as [|y u].
        -- simpl in E. rewrite E in H. now destruct (match_here_complete _ _ Hm v).
        -- injection E as _ E. now exists u, m, v.
Qed.

(** The five markers of the source at work. *)
Example split_numbered :
  Re.split NLPProcessor.numbered
    (lit "Preamble" ++ ["010"%char] ++ lit "12. First" ++ ["010"%char] ++ lit "13." ++ ["009"%char]
     ++ lit "Second 1. inline")
  = [lit "Preamble"; lit "First"; lit "Second 1. inline"].
Proof. reflexivity. Qed.

Example split_lettered :
  Re.split NLPProcessor.lettered
    (lit "Duties" ++ ["010"%char] ++ lit "(a) deliver" ++ ["010"%char] ++ lit "(B) not a marker")
  = [lit "Duties"; lit "deliver" ++ ["010"%char] ++ lit "(B) not a marker"].
Proof. reflexivity. Qed.

Example split_section_header :
  Re.split NLPProcessor.section_header
    (lit "Title" ++ ["010"%char] ++ lit "SECTION  12 Scope" ++ ["010"%char] ++ lit "SECTION II")
  = [lit "Title"; lit " Scope" ++ ["010"%char] ++ lit "SECTION II"].
Proof. reflexivity. Qed.

Example split_article_header :
  Re.split NLPProcessor.article_header
    (lit "Title" ++ ["010"%char] ++ lit "ARTICLE 3" ++ ["010"%char] ++ lit "Body")
  = [lit "Title"; ["010"%char] ++ lit "Body"].
Proof. reflexivity. Qed.

Example split_nested :
  Re.split NLPProcessor.nested
    (lit "Scope" ++ ["010"%char] ++ lit "1.1. Goods" ++ ["010"%char] ++ lit "1.2 no marker")
  = [lit "Scope"; lit " Goods" ++ ["010"%char] ++ lit "1.2 no marker"].
Proof. reflexivity. Qed.

(** A greedy [.*] gives back what the rest of the pattern needs. *)
Example search_gives_back :
  search (charsI "indemnify" ++ RiskAnalyzer.ANY :: charsI "all losses")
         (lit "shall indemnify the buyer for all losses and all losses of profit") = true
  /\ search (charsI "indemnify" ++ RiskAnalyzer.ANY :: charsI "all losses")
            (lit "shall indemnify the buyer" ++ ["010"%char] ++ lit "for all losses") = false.
Proof. split; reflexivity. Qed.

End Re_facts.

(* ================================================================== *)
(** * Risk classification *)
(* ================================================================== *)

Section Classifier_facts.
Import Py Re Spec RiskAnalyzer.

Lemma any_search_spec (patterns : list regex) (text : str) :
  any_search patterns text = true <-> Exists (fun p => Found p text) patterns.
Proof.
  induction patterns as [|p ps IH]; simpl.
  - split; [discriminate | intros H; inversion H].
  - rewrite Exists_cons, <- IH, <- search_spec.
    destruct (search p text); intuition congruence.
Qed.

Lemma any_search_false (patterns : list regex) (text : str) :
  any_search patterns text = false <-> ~ Exists (fun p => Found p text) patterns.
Proof.
  rewrite <- any_search_spec. destruct (any_search patterns text); intuition congruence.
Qed.

(** The three outcomes of [assess_clause_risk], by the two loops. *)
Lemma assess_cases (self : RiskAnalyzer.t) (clause_text : str) :
  let text := lower clause_text in
  (any_search (high_risk (risk_patterns self)) text = true /\
   assess_clause_risk self clause_text = lit "High")
  \/ (any_search (high_risk (risk_patterns self)) text = false /\
      any_search (medium_risk (risk_patterns self)) text = true /\
      assess_clause_risk self clause_text = lit "Medium")
  \/ (any_search (high_risk (risk_patterns self)) text = false /\
      any_search (medium_risk (risk_patterns self)) text = false /\
      assess_clause_risk self clause_text = lit "Low").
Proof.
  unfold assess_clause_risk.
  destruct (any_search (high_risk _) _); [now left|].
  destruct (any_search (medium_risk _) _); [right; left | right; right]; auto.
Qed.

Lemma assess_high_iff (self : RiskAnalyzer.t) (clause_text : str) :
  assess_clause_risk self clause_text = lit "High" <->
  Exists (fun p => Found p (lower clause_text)) (high_risk (risk_patterns self)).
Proof.
  rewrite <- any_search_spec.
  destruct (assess_cases self clause_text) as [[H ->] | [[H [_ ->]] | [H [_ ->]]]];
    cbv zeta in H; rewrite H; split; congruence || discriminate.
Qed.

Lemma assess_medium_iff (self : RiskAnalyzer.t) (clause_text : str) :
  assess_clause_risk self clause_text = lit "Medium" <->
  ~ Exists (fun p => Found p (lower clause_text)) (high_risk (risk_patterns self)) /\
  Exists (fun p => Found p (lower clause_text)) (medium_risk (risk_patterns self)).
Proof.
  rewrite <- any_search_false, <- any_search_spec.
  destruct (assess_cases self clause_text) as [[H ->] | [[H [H' ->]] | [H [H' ->]]]];
    cbv zeta in H; try (cbv zeta in H'; rewrite H'); rewrite H;
    split; try discriminate; intuition congruence.
Qed.

Lemma assess_low_iff (self : RiskAnalyzer.t) (clause_text : str) :
  assess_clause_risk self clause_text = lit "Low" <->
  ~ Exists (fun p => Found p (lower clause_text)) (high_risk (risk_patterns self)) /\
  ~ Exists (fun p => Found p (lower clause_text)) (medium_risk (risk_patterns self)).
Proof.
  rewrite <- !any_search_false.
  destruct (assess_cases self clause_text) as [[H ->] | [[H [H' ->]] | [H [H' ->]]]];
    cbv zeta in H; try (cbv zeta in H'; rewrite H'); rewrite H;
    split; try discriminate; intuition congruence.
Qed.

(** C2.  [assess_clause_risk] lower-cases the clause and answers "High"
    exactly when some High-risk pattern occurs in it, "Medium" exactly when
    none does and some Medium-risk pattern occurs, "Low" exactly when
    neither list has a pattern that occurs.  A High-risk pattern that
    occurs decides the answer whatever stands after it in the list, and a
    clause in which a High-risk and a Medium-risk pattern both occur is
    "High". *)
Theorem assess_clause_risk_priority (self : RiskAnalyzer.t) (clause_text : str) :
  let high := high_risk (risk_patterns self) in
  let medium := medium_risk (risk_patterns self) in
  let occurs := fun p => Found p (lower clause_text) in
  (assess_clause_risk self clause_text = lit "High" <-> Exists occurs high)
  /\ (assess_clause_risk self clause_text = lit "Medium" <->
      ~ Exists occurs high /\ Exists occurs medium)
  /\ (assess_clause_risk self clause_text = lit "Low" <->
      ~ Exists occurs high /\ ~ Exists occurs medium)
  /\ (forall before p after,
        high = before ++ p :: after -> occurs p ->
        assess_clause_risk self clause_text = lit "High")
  /\ (Exists occurs high -> Exists occurs medium ->
      assess_clause_risk self clause_text = lit "High").
Proof.
  intros high medium occurs.
  split; [apply assess_high_iff|].
  split; [apply assess_medium_iff|].
  split; [apply assess_low_iff|]. split.
  - intros before p after E Hp. apply assess_high_iff. fold high. rewrite E.
    apply Exists_app. right. now constructor.
  - intros H _. now apply assess_high_iff.
Qed.

(** The example of the specification, on the rule set of the source: a
    clause with both "unilateral termination" and "force majeure broad". *)
Lemma assess_clause_risk_priority_witness :
  RiskAnalyzer.assess_clause_risk (RiskAnalyzer.init true None)
    (lit "Unilateral termination is allowed, and force majeure broad terms apply.")
  = lit "High".
Proof.
  apply (proj2 (proj2 (proj2 (proj2
    (assess_clause_risk_priority (RiskAnalyzer.init true None)
       (lit "Unilateral termination is allowed, and force majeure broad terms apply.")))))).
  - apply any_search_spec. vm_compute. reflexivity.
  - apply any_search_spec. vm_compute. reflexivity.
Defined.

(** C10.  "Low" is the answer exactly when no High-risk and no Medium-risk
    pattern occurs.  The [low_risk] list is never read: two analyzers that
    agree on the other two lists classify every clause alike, so replacing
    the [low_risk] list by any other changes no classification. *)
Theorem low_risk_patterns_unused (self : RiskAnalyzer.t) (clause_text : str) :
  let occurs := fun p => Found p (lower clause_text) in
  (assess_clause_risk self clause_text = lit "Low" <->
     ~ Exists occurs (high_risk (risk_patterns self)) /\
     ~ Exists occurs (medium_risk (risk_patterns self)))
  /\ (forall other : RiskAnalyzer.t,
        high_risk (risk_patterns other) = high_risk (risk_patterns self) ->
        medium_risk (risk_patterns other) = medium_risk (risk_patterns self) ->
        assess_clause_risk other clause_text = assess_clause_risk self clause_text)
  /\ (forall low : list regex,
        assess_clause_risk
          {| client := client self;
             risk_patterns :=
               {| high_risk := high_risk (risk_patterns self);
                  medium_risk := medium_risk (risk_patterns self);
                  low_risk := low |};
             risk_categories := risk_categories self |} clause_text
        = assess_clause_risk self clause_text).
Proof.
  intros occurs. split; [|split].
  - apply assess_low_iff.
  - intros other Hh Hm. unfold assess_clause_risk. now rewrite Hh, Hm.
  - intros low. reflexivity.
Qed.

(** A clause in which only the Low-risk pattern "mutual agreement" occurs:
    "Low" on the rule set of the source, and still "Low" once the
    [low_risk] list is emptied. *)
Lemma low_risk_patterns_unused_witness :
  let clause := lit "Either party may renew by mutual agreement." in
  let analyzer := RiskAnalyzer.init true None in
  any_search (low_risk (risk_patterns analyzer)) (lower clause) = true
  /\ assess_clause_risk analyzer clause = lit "Low"
  /\ assess_clause_risk
       {| client := None;
          risk_patterns :=
            {| high_risk := high_risk default_risk_patterns;
               medium_risk := medium_risk default_risk_patterns;
               low_risk := [] |};
          risk_categories := default_risk_categories |} clause
     = assess_clause_risk analyzer clause.
Proof.
  intros clause analyzer. split; [vm_compute; reflexivity|]. split.
  - apply (proj1 (low_risk_patterns_unused analyzer clause)).
    split; apply any_search_false; vm_compute; reflexivity.
  - apply (proj1 (proj2 (low_risk_patterns_unused analyzer clause))); reflexivity.
Defined.

(** ** Categories *)

Lemma any_keyword_spec (keywords : list str) (text : str) :
  any_keyword keywords text = true <-> Exists (fun kw => Substring kw text) keywords.
Proof.
  induction keywords as [|kw kws IH]; simpl.
  - split; [discriminate | intros H; inversion H].
  - rewrite Exists_cons, <- IH, <- contains_spec.
    destruct (contains text kw); intuition congruence.
Qed.

Lemma first_category_first_hit (before after : list (str * list str))
  (category : str) (keywords : list str) (text : str) :
  Forall (fun e => any_keyword (snd e) text = false) before ->
  any_keyword keywords text = true ->
  first_category (before ++ (category, keywords) :: after) text = Some category.
Proof.
  intros Hb Hk. induction Hb as [|[c ks] before Hc _ IH]; simpl.
  - now rewrite Hk.
  - simpl in Hc. now rewrite Hc.
Qed.

Lemma first_category_none (categories : list (str * list str)) (text : str) :
  Forall (fun e => any_keyword (snd e) text = false) categories ->
  first_category categories text = None.
Proof.
  induction 1 as [|[c ks] rest Hc _ IH]; simpl; [reflexivity|].
  simpl in Hc. now rewrite Hc.
Qed.

Lemma no_keyword_iff (keywords : list str) (text : str) :
  any_keyword keywords text = false <->
  ~ Exists (fun kw => Substring kw text) keywords.
Proof.
  rewrite <- any_keyword_spec. destruct (any_keyword keywords text); intuition congruence.
Qed.

(** C5.  [get_risk_category] lower-cases the clause and walks the
    categories in their declared order; the first category one of whose
    keywords occurs in the lowered text is the answer, and "General" is
    the answer when no keyword of any category occurs.  The declared order
    of the source is Penalty Clauses, Indemnity, Termination, Jurisdiction,
    IP Rights, Confidentiality; so a clause that contains "penalty" and
    "indemnify" is "Penalty Clauses" and not "Indemnity". *)
Theorem get_risk_category_first_declared (self : RiskAnalyzer.t) (clause_text : str) :
  let hit := fun entry : str * list str =>
               Exists (fun kw => Substring kw (lower clause_text)) (snd entry) in
  (forall before category keywords after,
      risk_categories self = before ++ (category, keywords) :: after ->
      Forall (fun entry => ~ hit entry) before ->
      hit (category, keywords) ->
      get_risk_category self clause_text = category)
  /\ (Forall (fun entry => ~ hit entry) (risk_categories self) ->
      get_risk_category self clause_text = lit "General")
  /\ (forall has_openai api_key,
        map fst (risk_categories (RiskAnalyzer.init has_openai api_key))
        = map lit ["Penalty Clauses"; "Indemnity"; "Termination"; "Jurisdiction";
                   "IP Rights"; "Confidentiality"]%string)
  /\ (forall has_openai api_key,
        Substring (lit "penalty") clause_text ->
        Substring (lit "indemnify") clause_text ->
        get_risk_category (RiskAnalyzer.init has_openai api_key) clause_text
          = lit "Penalty Clauses"
        /\ get_risk_category (RiskAnalyzer.init has_openai api_key) clause_text
          <> lit "Indemnity").
Proof.
  intros hit. split; [|split; [|split]].
  - intros before category keywords after E Hb Hk. unfold get_risk_category.
    rewrite E, (first_category_first_hit before after category keywords); [reflexivity| |].
    + eapply Forall_impl; [|exact Hb]. intros e He. now apply no_keyword_iff.
    + now apply any_keyword_spec.
  - intros Hn. unfold get_risk_category. rewrite first_category_none; [reflexivity|].
    eapply Forall_impl; [|exact Hn]. intros e He. now apply no_keyword_iff.
  - reflexivity.
  - intros has_openai api_key Hp _.
    assert (E : get_risk_category (RiskAnalyzer.init has_openai api_key) clause_text
                = lit "Penalty Clauses").
    { unfold get_risk_category.
      change (risk_categories (RiskAnalyzer.init has_openai api_key))
        with ([] ++ (lit "Penalty Clauses",
                     map lit ["penalty"; "liquidated damages"; "fine"; "forfeit"]%string)
                 :: tl default_risk_categories).
      rewrite first_category_first_hit; [reflexivity | constructor |].
      apply any_keyword_spec. left. apply (Substring_lower _ _ Hp). }
    split; [exact E | rewrite E; discriminate].
Qed.

Lemma get_risk_category_first_declared_witness :
  get_risk_category (RiskAnalyzer.init true None)
    (lit "The Supplier shall indemnify the Buyer and pay a penalty for each late delivery.")
  = lit "Penalty Clauses".
Proof.
  apply (proj2 (proj2 (proj2
    (get_risk_category_first_declared (RiskAnalyzer.init true None)
       (lit "The Supplier shall indemnify the Buyer and pay a penalty for each late delivery.")))));
    apply contains_spec; vm_compute; reflexivity.
Defined.

End Classifier_facts.

(* ================================================================== *)
(** * Aggregate scoring *)
(* ================================================================== *)

Section Scorer_facts.
Import Py Spec Report RiskAnalyzer.

Lemma risk_score_weight (level : str) : dict_get risk_scores level 1 = weight level.
Proof.
  unfold weight, risk_scores, dict_get, str_eqb.
  destruct (list_eq_dec ascii_dec (lit "High") level) as [<-|N1].
  - reflexivity.
  - destruct (list_eq_dec ascii_dec level (lit "High")) as [E|_]; [now symmetry in E|].
    destruct (list_eq_dec ascii_dec (lit "Medium") level) as [<-|N2]; [reflexivity|].
    destruct (list_eq_dec ascii_dec level (lit "Medium")) as [E|_]; [now symmetry in E|].
    now destruct (list_eq_dec ascii_dec (lit "Low") level).
Qed.

Lemma total_score_sum (results : list ClauseAnalysis) (start : nat) :
  fold_left (fun total_score result =>
               total_score + dict_get risk_scores (Risk_Level result) 1)
            results start
  = start + list_sum (map weight (map Risk_Level results)).
Proof.
  revert start. induction results as [|r rs IH]; intros start;
    cbn [fold_left map list_sum fold_right].
  - lia.
  - rewrite IH, risk_score_weight. unfold list_sum. lia.
Qed.

(** The verdict as a function of the mean of the levels. *)
Lemma calculate_overall_risk_mean (self : RiskAnalyzer.t) (results : list ClauseAnalysis) :
  calculate_overall_risk self results =
  let m := mean (map Risk_Level results) in
  if Qle_bool (5 # 2) m then lit "High Risk"
  else if Qle_bool (3 # 2) m then lit "Medium Risk"
  else lit "Low Risk".
Proof.
  unfold calculate_overall_risk, mean. rewrite total_score_sum.
  destruct results as [|r rs]; [reflexivity|].
  cbn [map length plus]. now rewrite length_map.
Qed.

Lemma Qle_bool_false (x y : Q) : Qle_bool x y = false <-> (y < x)%Q.
Proof.
  split.
  - intros H. apply Qnot_le_lt. intros L. apply Qle_bool_iff in L. congruence.
  - intros H. destruct (Qle_bool x y) eqn:E; [|reflexivity].
    apply Qle_bool_iff in E. now apply Qlt_not_le in H.
Qed.

(** The float of the source.  For fewer than 2^51 results a mean below a
    threshold stays below it by more than half the spacing of the floats
    there (2^-51 next to 2.5, 2^-52 next to 1.5), so the quotient rounded
    to a float falls on the same side of the threshold as the mean. *)
Lemma mean_clear_of_thresholds (levels : list str) :
  levels <> [] -> (Z.of_nat (length levels) < 2 ^ 51)%Z ->
  ((mean levels < 5 # 2)%Q -> (mean levels < (5 # 2) - (1 # 2 ^ 52))%Q)
  /\ ((mean levels < 3 # 2)%Q -> (mean levels < (3 # 2) - (1 # 2 ^ 53))%Q).
Proof.
  intros Hne Hn. destruct levels as [|l ls]; [contradiction|].
  unfold mean. set (t := Z.of_nat (list_sum (map weight (l :: ls)))).
  assert (En : Zpos (Pos.of_nat (length (l :: ls))) = Z.of_nat (length (l :: ls))).
  { cbn [length]. now rewrite <- Pos.of_nat_succ, Zpos_P_of_succ_nat, Nat2Z.inj_succ. }
  revert Hn En. generalize (Z.of_nat (length (l :: ls))) as n.
  generalize (Pos.of_nat (length (l :: ls))) as p. intros p n Hn En.
  change (2 ^ 51)%Z with 2251799813685248%Z in Hn.
  change (2 ^ 52)%positive with 4503599627370496%positive.
  change (2 ^ 53)%positive with 9007199254740992%positive.
  unfold Qlt, Qle, Qminus, Qplus, Qopp. cbn [Qnum Qden].
  split; intros H; lia.
Qed.

(** C3.  [calculate_overall_risk] weighs High as 3, Medium as 2, Low and
    every other level as 1, and takes the mean of the weights, 1 for no
    results at all.  The verdict is "High Risk" exactly when the mean is
    at least 2.5, "Medium Risk" exactly when it is at least 1.5 and below
    2.5, "Low Risk" exactly when it is below 1.5.  So [Medium, Medium] and
    [High, High, Low] are "Medium Risk", [High, High] is "High Risk", a
    mean of exactly 1.5 is "Medium Risk", and no results are "Low Risk". *)
Theorem calculate_overall_risk_bands (self : RiskAnalyzer.t) (results : list ClauseAnalysis) :
  let levels := map Risk_Level results in
  let verdict := calculate_overall_risk self results in
  (forall level, dict_get risk_scores level 1 = weight level)
  /\ (weight (lit "High") = 3 /\ weight (lit "Medium") = 2 /\ weight (lit "Low") = 1
      /\ forall level, level <> lit "High" -> level <> lit "Medium" -> weight level = 1)
  /\ (mean [] == 1)%Q
  /\ (verdict = lit "High Risk" <-> (5 # 2 <= mean levels)%Q)
  /\ (verdict = lit "Medium Risk" <-> (3 # 2 <= mean levels)%Q /\ (mean levels < 5 # 2)%Q)
  /\ (verdict = lit "Low Risk" <-> (mean levels < 3 # 2)%Q)
  /\ (levels = [lit "Medium"; lit "Medium"] -> verdict = lit "Medium Risk")
  /\ (levels = [lit "High"; lit "High"; lit "Low"] -> verdict = lit "Medium Risk")
  /\ (levels = [lit "High"; lit "High"] -> verdict = lit "High Risk")
  /\ ((mean levels == 3 # 2)%Q -> verdict = lit "Medium Risk")
  /\ (levels = [] -> verdict = lit "Low Risk").
Proof.
  intros levels verdict.
  assert (Hv : verdict = if Qle_bool (5 # 2) (mean levels) then lit "High Risk"
                         else if Qle_bool (3 # 2) (mean levels) then lit "Medium Risk"
                         else lit "Low Risk")
    by apply calculate_overall_risk_mean.
  assert (Hmed : verdict = lit "Medium Risk" <->
                 (3 # 2 <= mean levels)%Q /\ (mean levels < 5 # 2)%Q).
  { rewrite Hv, <- Qle_bool_iff, <- Qle_bool_false.
    destruct (Qle_bool (5 # 2) (mean levels)), (Qle_bool (3 # 2) (mean levels));
      split; try discriminate; intuition congruence. }
  split; [exact risk_score_weight|]. split.
  { repeat split; try reflexivity. intros level N1 N2. unfold weight.
    destruct (list_eq_dec ascii_dec level (lit "High")); [contradiction|].
    now destruct (list_eq_dec ascii_dec level (lit "Medium")). }
  split; [reflexivity|]. split; [|split; [exact Hmed|split]].
  - rewrite Hv, <- Qle_bool_iff.
    destruct (Qle_bool (5 # 2) (mean levels)), (Qle_bool (3 # 2) (mean levels));
      split; try discriminate; intuition congruence.
  - rewrite Hv, <- Qle_bool_false.
    destruct (Qle_bool (5 # 2) (mean levels)) eqn:E5,
             (Qle_bool (3 # 2) (mean levels)) eqn:E3;
      split; try discriminate; try reflexivity; try congruence.
    intros _. exfalso. apply Qle_bool_iff in E5. apply Qle_bool_false in E3.
    apply (Qlt_irrefl (3 # 2)). eapply Qlt_trans; [|exact E3].
    eapply Qlt_le_trans; [|exact E5]. reflexivity.
  - repeat split.
    + intros E. rewrite Hv, E. reflexivity.
    + intros E. rewrite Hv, E. reflexivity.
    + intros E. rewrite Hv, E. reflexivity.
    + intros E. apply Hmed. rewrite E. split; [apply Qle_refl | reflexivity].
    + intros E. rewrite Hv, E. reflexivity.
Qed.

(** Four clauses, two Medium and two Low: the mean is exactly 1.5. *)
Lemma calculate_overall_risk_bands_witness :
  let row := fun level => mkClauseAnalysis 0 [] level [] [] [] in
  let results := map row [lit "Medium"; lit "Low"; lit "Medium"; lit "Low"] in
  (mean (map Risk_Level results) == 3 # 2)%Q
  /\ calculate_overall_risk (RiskAnalyzer.init true None) results = lit "Medium Risk".
Proof.
  intros row results. split; [reflexivity|].
  apply (calculate_overall_risk_bands (RiskAnalyzer.init true None) results).
  reflexivity.
Defined.

End Scorer_facts.

(* ================================================================== *)
(** * Segmentation *)
(* ================================================================== *)

Section Segmenter_facts.
Import Py Re Spec NLPProcessor.

Variable sent_tokenize : str -> list str.

(** ** The structural path *)

Lemma clean_loop (clauses acc : list str) :
  fold_left clean_step clauses acc
  = acc ++ filter (fun fragment => 50 <? length fragment) (map strip clauses).
Proof.
  revert acc. induction clauses as [|c cs IH]; intros acc; simpl.
  - now rewrite app_nil_r.
  - rewrite IH. unfold clean_step.
    destruct (50 <? length (strip c)); [now rewrite <- app_assoc | reflexivity].
Qed.

Lemma cleaned_survivors (p : regex) (text : str) :
  cleaned (Re.split p text) = survivors p text.
Proof. unfold cleaned. now rewrite clean_loop. Qed.

(** The guard [len(clauses) > 1] rejects nothing that the threshold on
    the survivors would accept. *)
Lemma split_by_patterns_cons (p : regex) (rest : list regex) (text : str) :
  split_by_patterns (p :: rest) text =
  if 3 <? length (survivors p text) then Some (survivors p text)
  else split_by_patterns rest text.
Proof.
  cbn [split_by_patterns]. rewrite cleaned_survivors.
  destruct (1 <? length (Re.split p text)) eqn:G; [reflexivity|].
  apply Nat.ltb_ge in G.
  assert (L : length (survivors p text) <= length (Re.split p text)).
  { unfold survivors. etransitivity; [apply filter_length_le|]. now rewrite length_map. }
  destruct (3 <? length (survivors p text)) eqn:A; [|reflexivity].
  apply Nat.ltb_lt in A. lia.
Qed.


Lemma split_by_patterns_none (patterns : list regex) (text : str) :
  split_by_patterns patterns text = None <->
  Forall (fun q => length (survivors q text) <= 3) patterns.
Proof.
  induction patterns as [|p ps IH].
  - split; [constructor | reflexivity].
  - rewrite split_by_patterns_cons, Forall_cons_iff, <- IH.
    destruct (3 <? length (survivors p text)) eqn:A.
    + apply Nat.ltb_lt in A. split; [discriminate | lia].
    + apply Nat.ltb_ge in A. tauto.
Qed.

Lemma split_by_patterns_some (patterns : list regex) (text : str) (r : list str) :
  split_by_patterns patterns text = Some r ->
  exists before p after,
    patterns = before ++ p :: after /\
    Forall (fun q => length (survivors q text) <= 3) before /\
    3 < length (survivors p text) /\ r = survivors p text.
Proof.
  induction patterns as [|p ps IH]; [discriminate|].
  rewrite split_by_patterns_cons.
  destruct (3 <? length (survivors p text)) eqn:A.
  - intros [= <-]. apply Nat.ltb_lt in A. exists [], p, ps. now repeat split.
  - intros H. destruct (IH H) as [before [q [after [-> [Hb [Hq ->]]]]]].
    apply Nat.ltb_ge in A. exists (p :: before), q, after. repeat split; auto.
Qed.

Lemma survivors_long (p : regex) (text : str) :
  Forall (fun clause => 50 < length (strip clause)) (survivors p text).
Proof.
  apply Forall_forall. intros c Hc. apply filter_In in Hc. destruct Hc as [Hi Hl].
  apply in_map_iff in Hi. destruct Hi as [f [<- _]].
  rewrite strip_idem. now apply Nat.ltb_lt.
Qed.


(** ** The fallback *)

Lemma closes_snoc (current : list str) (sentence : str) :
  closes (current ++ [sentence]) =
  (3 <=? length (current ++ [sentence])) || endswith_any sentence [lit ":"; lit ";"].
Proof. unfold closes. now rewrite last_last. Qed.

(** The loop, started in the middle of an unclosed group. *)
Lemma group_loop (sentences clauses current : list str) :
  (forall k, 0 < k <= length current -> closes (firstn k current) = false) ->
  exists groups,
    Grouped (current ++ sentences) groups /\
    (let (done, trailing) := fold_left group_step sentences (clauses, current) in
     match trailing with
     | [] => done
     | _ :: _ => done ++ [join (lit " ") trailing]
     end) = clauses ++ map (join (lit " ")) groups.
Proof.
  revert clauses current. induction sentences as [|s rest IH]; intros clauses current Hopen.
  - simpl fold_left. rewrite app_nil_r. destruct current as [|c cs].
    + exists []. split; [constructor | now rewrite app_nil_r].
    + exists [c :: cs]. split; [|reflexivity].
      apply G_trailing; [discriminate|]. intros k Hk. apply Hopen. lia.
  - cbn [fold_left]. unfold group_step at 2. rewrite <- closes_snoc.
    assert (Hprefix : forall k, 0 < k < length (current ++ [s]) ->
                      closes (firstn k (current ++ [s])) = false).
    { intros k Hk. rewrite length_app in Hk. simpl in Hk.
      rewrite firstn_app. replace (k - length current) with 0 by lia.
      simpl. rewrite app_nil_r. apply Hopen. lia. }
    destruct (closes (current ++ [s])) eqn:C.
    + destruct (IH (clauses ++ [join (lit " ") (current ++ [s])]) []) as [gs [Hg He]].
      { intros k Hk. simpl in Hk. lia. }
      exists ((current ++ [s]) :: gs). split.
      * replace (current ++ s :: rest) with ((current ++ [s]) ++ rest)
          by now rewrite <- app_assoc.
        apply G_closed; auto. now destruct current.
      * rewrite He. simpl. now rewrite <- app_assoc.
    + destruct (IH clauses (current ++ [s])) as [gs [Hg He]].
      { intros k Hk. destruct (Nat.eq_dec k (length (current ++ [s]))) as [->|N].
        - now rewrite firstn_all.
        - apply Hprefix. lia. }
      exists gs. split; [|exact He].
      now rewrite <- app_assoc in Hg.
Qed.

Lemma group_sentences_grouped (sentences : list str) :
  exists groups,
    Grouped sentences groups /\
    group_sentences sentences = map (join (lit " ")) groups.
Proof.
  destruct (group_loop sentences [] []) as [gs [Hg He]].
  - intros k Hk. simpl in Hk. lia.
  - exists gs. split; [exact Hg | exact He].
Qed.

Lemma Grouped_concat (sentences : list str) (groups : list (list str)) :
  Grouped sentences groups -> concat groups = sentences.
Proof.
  induction 1 as [|g _ _|g rest gs _ _ _ _ IH]; simpl.
  - reflexivity.
  - apply app_nil_r.
  - now rewrite IH.
Qed.

Lemma open_before_end_size (g : list str) : open_before_end g -> length g <= 3.
Proof.
  intros H. destruct (le_lt_dec (length g) 3) as [L|L]; [exact L|].
  assert (C : closes (firstn 3 g) = false) by (apply H; lia).
  unfold closes in C. rewrite length_firstn, Nat.min_l in C by lia. discriminate.
Qed.

Lemma Grouped_sizes (sentences : list str) (groups : list (list str)) :
  Grouped sentences groups -> Forall (fun g => 1 <= length g <= 3) groups.
Proof.
  induction 1 as [|g Hn Ho|g rest gs Hn Ho _ _ IH].
  - constructor.
  - constructor; [|constructor]. split; [destruct g; simpl; [contradiction|lia]|].
    now apply open_before_end_size.
  - constructor; [|exact IH]. split; [destruct g; simpl; [contradiction|lia]|].
    now apply open_before_end_size.
Qed.

(** C4.  When no structural pattern leaves more than 3 fragments,
    [extract_clauses] groups the sentences of the tokenizer: the groups
    cut the sentence sequence in order into runs of 1 to 3 sentences, a
    run ends exactly at the first sentence with which it has 3 sentences
    or which ends with a colon or semicolon, a last unclosed run is kept,
    and each run is one clause, its sentences joined by single spaces. *)
Theorem extract_clauses_fallback (contract_text : str) :
  Forall (fun p => length (survivors p contract_text) <= 3) clause_patterns ->
  exists groups,
    Grouped (sent_tokenize contract_text) groups
    /\ concat groups = sent_tokenize contract_text
    /\ Forall (fun g => 1 <= length g <= 3) groups
    /\ extract_clauses sent_tokenize contract_text = map (join (lit " ")) groups.
Proof.
  intros H. apply split_by_patterns_none in H.
  destruct (group_sentences_grouped (sent_tokenize contract_text)) as [gs [Hg He]].
  exists gs. split; [exact Hg|]. split; [now apply Grouped_concat|].
  split; [now apply (Grouped_sizes (sent_tokenize contract_text))|].
  unfold extract_clauses. now rewrite H.
Qed.

End Segmenter_facts.

Section Segmenter_examples.
Import Py Re Spec NLPProcessor Scenario.


(** The four clauses on one line: no pattern applies, and the four
    sentences make a group of three and a trailing group of one. *)
Lemma extract_clauses_fallback_witness :
  exists groups,
    Grouped (four_sentences on_one_line) groups
    /\ concat groups = four_sentences on_one_line
    /\ Forall (fun g => 1 <= length g <= 3) groups
    /\ extract_clauses four_sentences on_one_line = map (join (lit " ")) groups.
Proof.
  apply (extract_clauses_fallback four_sentences on_one_line).
  repeat constructor; vm_compute; lia.
Defined.

End Segmenter_examples.

(* ================================================================== *)
(** * What segmentation keeps and what it leaves out *)
(* ================================================================== *)

Section Segmenter_content.
Import Py Re Spec NLPProcessor.

Variable sent_tokenize : str -> list str.

Lemma lstrip_visible (s : str) : lstrip s <> [] <-> visible s.
Proof.
  unfold visible. induction s as [|c s IH]; simpl.
  - split; [congruence | intros H; inversion H].
  - rewrite Exists_cons. destruct (isspace c) eqn:E.
    + rewrite IH. intuition congruence.
    + split; [now left | discriminate].
Qed.

Lemma strip_visible (s : str) : strip s <> [] <-> visible s.
Proof.
  rewrite <- lstrip_visible. unfold strip, rstrip. split.
  - intros H E. rewrite E in H. now apply H.
  - intros H. pose proof (lstrip_head s) as Hc.
    destruct (lstrip s) as [|c r]; [contradiction|].
    simpl rev. destruct (lstrip_keeps_last (rev r) c Hc) as [r' ->].
    rewrite rev_app_distr. discriminate.
Qed.

Lemma join_visible (sep s : str) (rest : list str) :
  visible s -> visible (join sep (s :: rest)).
Proof.
  intros H. destruct rest as [|s' rest]; simpl; [exact H|].
  apply Exists_app. now left.
Qed.

Lemma Grouped_nonempty (sentences : list str) (groups : list (list str)) :
  Grouped sentences groups -> Forall (fun g => g <> []) groups.
Proof.
  induction 1; repeat constructor; auto.
Qed.

(** C7, as the code has it.  On the structural path the result is, in
    order, the trimmed fragments of the accepted pattern that are longer
    than 50 characters: a shorter fragment is left out, and every clause
    is non-empty after trimming.  On the fallback path no sentence is
    left out: the clauses are the sentences of the tokenizer, in order,
    cut into non-empty groups and joined by single spaces; they are
    non-empty after trimming when the sentences are. *)
Theorem extract_clauses_content (contract_text : str) :
  (forall clauses,
      split_by_patterns clause_patterns contract_text = Some clauses ->
      Forall (fun clause => strip clause <> []) (extract_clauses sent_tokenize contract_text)
      /\ exists p,
           In p clause_patterns /\
           extract_clauses sent_tokenize contract_text
           = filter (fun fragment => 50 <? length fragment)
                    (map strip (Re.split p contract_text)))
  /\ (split_by_patterns clause_patterns contract_text = None ->
      (exists groups,
          concat groups = sent_tokenize contract_text
          /\ Forall (fun g => g <> []) groups
          /\ extract_clauses sent_tokenize contract_text = map (join (lit " ")) groups)
      /\ (Forall (fun sentence => strip sentence <> []) (sent_tokenize contract_text) ->
          Forall (fun clause => strip clause <> [])
                 (extract_clauses sent_tokenize contract_text))).
Proof.
  split.
  - intros clauses H. unfold extract_clauses. rewrite H.
    destruct (split_by_patterns_some _ _ _ H) as [before [p [after [E [_ [_ ->]]]]]].
    split.
    + eapply Forall_impl; [|apply survivors_long]. intros c Hc E0. simpl in Hc.
      rewrite E0 in Hc. simpl in Hc. lia.
    + exists p. split; [rewrite E; apply in_elt | reflexivity].
  - intros H. unfold extract_clauses. rewrite H.
    destruct (group_sentences_grouped (sent_tokenize contract_text)) as [gs [Hg He]].
    pose proof (Grouped_concat _ _ Hg) as Hc.
    pose proof (Grouped_nonempty _ _ Hg) as Hn. split.
    + exists gs. auto.
    + intros Hs. rewrite He. rewrite <- Hc in Hs. clear Hg He Hc.
      induction Hn as [|g gs Hg _ IH]; [constructor|].
      simpl in Hs. apply Forall_app in Hs. destruct Hs as [Hs1 Hs2].
      simpl. constructor; [|now apply IH].
      destruct g as [|s g]; [contradiction|]. inversion Hs1; subst.
      apply strip_visible, join_visible. now apply strip_visible.
Qed.

End Segmenter_content.

Section Segmenter_content_examples.
Import Py Re Spec NLPProcessor Scenario.

(** Five numbered clauses, the second "Zero fees.": the numbered pattern
    is accepted with four survivors, and the result is those four. *)
Lemma extract_clauses_content_witness :
  split_by_patterns clause_patterns with_short_clause
    = Some (survivors numbered with_short_clause)
  /\ length (survivors numbered with_short_clause) = 4
  /\ Forall (fun clause => strip clause <> [])
            (extract_clauses four_sentences with_short_clause).
Proof.
  assert (H : split_by_patterns clause_patterns with_short_clause
              = Some (survivors numbered with_short_clause))
    by (vm_compute; reflexivity).
  split; [exact H|]. split; [vm_compute; reflexivity|].
  apply (proj1 (extract_clauses_content four_sentences with_short_clause) _ H).
Defined.

(** C7 as stated fails: the contract is not empty, "Zero fees." stands
    between two markers, its "Z" is no blank and no part of a marker, and
    under every tokenizer no returned clause has a "Z" in it. *)
Lemma extract_clauses_drops_short_fragment :
  with_short_clause <> []
  /\ In (lit "Zero fees.") (map strip (Re.split numbered with_short_clause))
  /\ isspace "Z" = false
  /\ (forall sent_tokenize,
        length (extract_clauses sent_tokenize with_short_clause) = 4
        /\ existsb (fun clause => contains clause (lit "Z"))
                   (extract_clauses sent_tokenize with_short_clause) = false).
Proof.
  split; [discriminate|]. split; [vm_compute; tauto|]. split; [reflexivity|].
  intros sent_tokenize. split; vm_compute; reflexivity.
Qed.

End Segmenter_content_examples.

(* ================================================================== *)
(** * The provider functions and the analysis loop *)
(* ================================================================== *)

Section Provider_facts.
Import Py Spec OpenAI Report RiskAnalyzer.

Variable HAS_OPENAI : bool.

Lemma explain_clause_unconfigured (self : RiskAnalyzer.t) (clause_text : str) (w : World) :
  (if HAS_OPENAI then client self else None) = None ->
  explain_clause HAS_OPENAI self clause_text w = (Returns msg_not_configured_explain, w).
Proof. intros H. unfold explain_clause. now rewrite H. Qed.

Lemma suggest_alternative_unconfigured (self : RiskAnalyzer.t) (clause_text : str) (w : World) :
  (if HAS_OPENAI then client self else None) = None ->
  suggest_alternative HAS_OPENAI self clause_text w = (Returns msg_not_configured_suggest, w).
Proof. intros H. unfold suggest_alternative. now rewrite H. Qed.

(** With a client, one request goes out, and whatever comes back becomes a
    string. *)
Lemma explain_clause_configured (self : RiskAnalyzer.t) (clause_text : str) (w : World)
  (c : Client) :
  (if HAS_OPENAI then client self else None) = Some c ->
  explain_clause HAS_OPENAI self clause_text w =
  (Returns
     match provider w (calls w) (explain_request clause_text) with
     | Response (Some text :: _) => strip text
     | Response (None :: _) => msg_no_explanation (lit "AttributeError")
     | Response [] => msg_no_explanation (lit "IndexError")
     | Raises e =>
         if contains e (lit "AuthenticationError") then msg_auth_failed
         else if contains e (lit "RateLimitError") then msg_rate_limit
         else msg_no_explanation e
     end,
   after_call w (explain_request clause_text)).
Proof.
  intros H. unfold explain_clause. rewrite H.
  unfold try_except, bind, create, after_call.
  change {| model := lit "gpt-4"; content := explain_prompt clause_text;
            temperature := (3 # 10)%Q; max_tokens := 150 |}
    with (explain_request clause_text).
  destruct (provider w (calls w) (explain_request clause_text)) as [[|[text|] choices]|e].
  - reflexivity.
  - reflexivity.
  - reflexivity.
  - unfold ret. destruct (contains e (lit "AuthenticationError")); [reflexivity|].
    now destruct (contains e (lit "RateLimitError")).
Qed.

Lemma suggest_alternative_configured (self : RiskAnalyzer.t) (clause_text : str) (w : World)
  (c : Client) :
  (if HAS_OPENAI then client self else None) = Some c ->
  suggest_alternative HAS_OPENAI self clause_text w =
  (Returns
     match provider w (calls w) (suggest_request clause_text) with
     | Response (Some text :: _) => strip text
     | Response (None :: _) => msg_no_suggestion (lit "AttributeError")
     | Response [] => msg_no_suggestion (lit "IndexError")
     | Raises e =>
         if contains e (lit "AuthenticationError") then msg_auth_failed
         else if contains e (lit "RateLimitError") then msg_rate_limit
         else msg_no_suggestion e
     end,
   after_call w (suggest_request clause_text)).
Proof.
  intros H. unfold suggest_alternative. rewrite H.
  unfold try_except, bind, create, after_call.
  change {| model := lit "gpt-4"; content := suggest_prompt clause_text;
            temperature := (3 # 10)%Q; max_tokens := 200 |}
    with (suggest_request clause_text).
  destruct (provider w (calls w) (suggest_request clause_text)) as [[|[text|] choices]|e].
  - reflexivity.
  - reflexivity.
  - reflexivity.
  - unfold ret. destruct (contains e (lit "AuthenticationError")); [reflexivity|].
    now destruct (contains e (lit "RateLimitError")).
Qed.

(** Neither function raises, and neither calls the provider twice. *)
Lemma explain_clause_returns (self : RiskAnalyzer.t) (clause_text : str) (w : World) :
  exists text w',
    explain_clause HAS_OPENAI self clause_text w = (Returns text, w')
    /\ (w' = w \/ w' = after_call w (explain_request clause_text)).
Proof.
  destruct (if HAS_OPENAI then client self else None) as [c|] eqn:H.
  - rewrite (explain_clause_configured self clause_text w c H). eauto.
  - rewrite (explain_clause_unconfigured self clause_text w H). eauto.
Qed.

Lemma suggest_alternative_returns (self : RiskAnalyzer.t) (clause_text : str) (w : World) :
  exists text w',
    suggest_alternative HAS_OPENAI self clause_text w = (Returns text, w')
    /\ (w' = w \/ w' = after_call w (suggest_request clause_text)).
Proof.
  destruct (if HAS_OPENAI then client self else None) as [c|] eqn:H.
  - rewrite (suggest_alternative_configured self clause_text w c H). eauto.
  - rewrite (suggest_alternative_unconfigured self clause_text w H). eauto.
Qed.

(** The loop of [app.py] ends with one row for each clause. *)
Lemma analyze_from_rows (self : RiskAnalyzer.t) (clauses : list str) :
  forall (i : nat) (results : list ClauseAnalysis) (w : World),
  exists rows w',
    App.analyze_from HAS_OPENAI self i clauses results w = (Returns (results ++ rows), w')
    /\ Rows HAS_OPENAI self i clauses rows.
Proof.
  induction clauses as [|clause rest IH]; intros i results w.
  - exists [], w. split; [simpl; unfold ret; now rewrite app_nil_r | constructor].
  - destruct (explain_clause_returns self clause w) as [e [w1 [He _]]].
    destruct (suggest_alternative_returns self clause w1) as [s [w2 [Hs _]]].
    cbn [App.analyze_from]. unfold bind at 1. rewrite He.
    unfold bind at 1. rewrite Hs.
    match goal with
    | |- context [App.analyze_from _ _ _ _ (results ++ [?r]) _] => set (row := r)
    end.
    destruct (IH (S i) (results ++ [row]) w2) as [rows [w' [Hr HR]]].
    exists (row :: rows), w'. split.
    + rewrite Hr. now rewrite <- app_assoc.
    + constructor; [|exact HR].
      unfold row_of, row. simpl. repeat split; eauto.
Qed.

Lemma Rows_length (self : RiskAnalyzer.t) (i : nat) (clauses : list str)
  (rows : list ClauseAnalysis) :
  Rows HAS_OPENAI self i clauses rows -> length rows = length clauses.
Proof. induction 1; simpl; congruence. Qed.

Lemma Rows_levels (self : RiskAnalyzer.t) (i : nat) (clauses : list str)
  (rows : list ClauseAnalysis) :
  Rows HAS_OPENAI self i clauses rows ->
  map Risk_Level rows = map (assess_clause_risk self) clauses.
Proof.
  induction 1 as [|i clause clauses row rows [_ [_ [Hl _]]] _ IH]; simpl; congruence.
Qed.

Lemma Rows_nth (self : RiskAnalyzer.t) (i : nat) (clauses : list str)
  (rows : list ClauseAnalysis) :
  Rows HAS_OPENAI self i clauses rows ->
  forall j clause,
    nth_error clauses j = Some clause ->
    exists row, nth_error rows j = Some row /\ row_of HAS_OPENAI self (i + j + 1) clause row.
Proof.
  induction 1 as [|i c clauses row rows Hrow _ IH]; intros j clause Hj.
  - destruct j; discriminate.
  - destruct j as [|j]; simpl in Hj.
    + injection Hj as <-. exists row. split; [reflexivity|].
      now replace (i + 0 + 1) with (i + 1) by lia.
    + destruct (IH j clause Hj) as [r [Hr Hro]]. exists r. split; [exact Hr|].
      now replace (i + S j + 1) with (S i + j + 1) by lia.
Qed.

(** The loop threads the world through the two calls of every clause. *)
Lemma analyze_from_run (self : RiskAnalyzer.t) (clauses : list str) :
  forall (i : nat) (results : list ClauseAnalysis) (w : World),
  exists rows w',
    App.analyze_from HAS_OPENAI self i clauses results w = (Returns (results ++ rows), w')
    /\ Run HAS_OPENAI self i clauses w rows w'.
Proof.
  induction clauses as [|clause rest IH]; intros i results w.
  - exists [], w. split; [simpl; unfold ret; now rewrite app_nil_r | constructor].
  - destruct (explain_clause_returns self clause w) as [e [w1 [He _]]].
    destruct (suggest_alternative_returns self clause w1) as [s [w2 [Hs _]]].
    cbn [App.analyze_from]. unfold bind at 1. rewrite He.
    unfold bind at 1. rewrite Hs.
    match goal with
    | |- context [App.analyze_from _ _ _ _ (results ++ [?r]) _] => set (row := r)
    end.
    destruct (IH (S i) (results ++ [row]) w2) as [rows [w' [Hr HR]]].
    exists (row :: rows), w'. split.
    + rewrite Hr. now rewrite <- app_assoc.
    + exact (Run_clause _ _ _ _ _ _ _ _ _ _ _ _ He Hs HR).
Qed.

(** A run fixes what the loop computes. *)
Lemma Run_computes (self : RiskAnalyzer.t) (i : nat) (clauses : list str)
  (w w' : World) (rows : list ClauseAnalysis) :
  Run HAS_OPENAI self i clauses w rows w' ->
  forall results,
    App.analyze_from HAS_OPENAI self i clauses results w = (Returns (results ++ rows), w').
Proof.
  induction 1 as [i w|i clause clauses w w1 w2 w' e s rows He Hs _ IH]; intros results.
  - simpl. unfold ret. now rewrite app_nil_r.
  - cbn [App.analyze_from]. unfold bind at 1. rewrite He.
    unfold bind at 1. rewrite Hs. rewrite IH. now rewrite <- app_assoc.
Qed.

(** The clause at position [j] of a run: the worlds before, between and
    after its two calls, and its row. *)
Lemma Run_nth (self : RiskAnalyzer.t) (i : nat) (clauses : list str)
  (w w' : World) (rows : list ClauseAnalysis) :
  Run HAS_OPENAI self i clauses w rows w' ->
  forall j clause,
    nth_error clauses j = Some clause ->
    exists row w_before w_between w_after,
      nth_error rows j = Some row
      /\ Run HAS_OPENAI self i (firstn j clauses) w (firstn j rows) w_before
      /\ explain_clause HAS_OPENAI self clause w_before = (Returns (Explanation row), w_between)
      /\ suggest_alternative HAS_OPENAI self clause w_between = (Returns (Suggestion row), w_after)
      /\ Run HAS_OPENAI self i (firstn (S j) clauses) w (firstn (S j) rows) w_after
      /\ Clause_no row = i + j + 1
      /\ Text row = firstn 100 clause ++ lit "..."
      /\ Risk_Level row = assess_clause_risk self clause
      /\ Risk_Category row = get_risk_category self clause.
Proof.
  induction 1 as [i w|i c clauses w w1 w2 w' e s rows He Hs _ IH]; intros j clause Hj.
  - destruct j; discriminate.
  - destruct j as [|j]; simpl in Hj.
    + injection Hj as <-.
      eexists; exists w, w1, w2. split; [reflexivity|].
      split; [constructor|]. split; [exact He|]. split; [exact Hs|].
      split; [exact (Run_clause _ _ _ _ _ _ _ _ _ _ _ _ He Hs (Run_done _ _ _ _))|].
      cbn [Clause_no Text Risk_Level Risk_Category].
      repeat split. lia.
    + destruct (IH j clause Hj)
        as [row [wb [wm [wa [Hrow [Hpre [Hex [Hsu [Hnext [Hno Hrest]]]]]]]]]].
      exists row, wb, wm, wa. split; [exact Hrow|].
      split; [exact (Run_clause _ _ _ _ _ _ _ _ _ _ _ _ He Hs Hpre)|].
      split; [exact Hex|]. split; [exact Hsu|].
      split; [exact (Run_clause _ _ _ _ _ _ _ _ _ _ _ _ He Hs Hnext)|].
      split; [lia | exact Hrest].
Qed.

End Provider_facts.

Section Pipeline_facts.
Import Py Re Spec OpenAI Report RiskAnalyzer NLPProcessor Scenario.

(** C8, as the code has it.  The run ends with one row for each clause,
    in order.  The row of the i-th clause carries the index i (counted
    from 1), the first 100 characters of the clause followed by "..."
    (not the clause text itself), the risk level and the category of the
    clause, and the explanation and the suggestion of this very run: the
    explanation is what [explain_clause] returned for the clause in the
    world that the loop had reached after the clauses before it, and the
    suggestion is what [suggest_alternative] returned for the clause in
    the world that this call had left; the loop goes on from the world
    that the suggestion has left.  The whole run is the one that [Run]
    describes, from the world it was started in. *)
Theorem analysis_rows_indexed (HAS_OPENAI : bool) (analyzer : RiskAnalyzer.t)
  (clauses : list str) (w : World) :
  exists rows w',
    App.analyze_clauses HAS_OPENAI analyzer clauses w = (Returns rows, w')
    /\ length rows = length clauses
    /\ Run HAS_OPENAI analyzer 0 clauses w rows w'
    /\ forall i clause,
         nth_error clauses i = Some clause ->
         exists row w_before w_between w_after,
           nth_error rows i = Some row
           /\ Clause_no row = i + 1
           /\ Text row = firstn 100 clause ++ lit "..."
           /\ Risk_Level row = assess_clause_risk analyzer clause
           /\ Risk_Category row = get_risk_category analyzer clause
           /\ App.analyze_clauses HAS_OPENAI analyzer (firstn i clauses) w
              = (Returns (firstn i rows), w_before)
           /\ explain_clause HAS_OPENAI analyzer clause w_before
              = (Returns (Explanation row), w_between)
           /\ suggest_alternative HAS_OPENAI analyzer clause w_between
              = (Returns (Suggestion row), w_after)
           /\ App.analyze_clauses HAS_OPENAI analyzer (firstn (S i) clauses) w
              = (Returns (firstn (S i) rows), w_after).
Proof.
  destruct (analyze_from_run HAS_OPENAI analyzer clauses 0 [] w) as [rows [w' [H HR]]].
  exists rows, w'. split; [exact H|].
  split.
  { clear H. revert HR. generalize 0. intros i HR.
    induction HR; simpl; congruence. }
  split; [exact HR|].
  intros i clause Hi.
  destruct (Run_nth _ _ _ _ _ _ _ HR i clause Hi)
    as [row [wb [wm [wa [Hrow [Hpre [Hex [Hsu [Hnext [Hno [Ht [Hl Hc]]]]]]]]]]]].
  exists row, wb, wm, wa.
  split; [exact Hrow|]. split; [exact Hno|]. split; [exact Ht|].
  split; [exact Hl|]. split; [exact Hc|].
  split; [exact (Run_computes _ _ _ _ _ _ _ Hpre [])|].
  split; [exact Hex|]. split; [exact Hsu|].
  exact (Run_computes _ _ _ _ _ _ _ Hnext []).
Qed.

(** With a provider that answers each request with one star for every
    request before it, the two clauses come back as two rows, indexed 1
    and 2, rated High and Medium; the explanations are the answers to the
    first and the third request, the suggestions the answers to the
    second and the fourth. *)
Lemma analysis_rows_indexed_witness :
  exists rows w',
    App.analyze_clauses true (RiskAnalyzer.init true (Some (lit "sk-test")))
      [clause1; clause2] counting_world
    = (Returns rows, w')
    /\ map Clause_no rows = [1; 2]
    /\ map Risk_Level rows = [lit "High"; lit "Medium"]
    /\ map Explanation rows = [lit ""; lit "**"]
    /\ map Suggestion rows = [lit "*"; lit "***"]
    /\ calls w'
       = [explain_request clause1; suggest_request clause1;
          explain_request clause2; suggest_request clause2].
Proof.
  destruct (analysis_rows_indexed true (RiskAnalyzer.init true (Some (lit "sk-test")))
              [clause1; clause2] counting_world) as [rows [w' [H _]]].
  exists rows, w'. split; [exact H|].
  vm_compute in H. injection H as <- <-.
  repeat split; vm_compute; reflexivity.
Defined.

(** C8 as stated fails: the row of a clause does not carry the text of the
    clause.  A short clause comes back with "..." appended; a clause of
    289 characters comes back as 103. *)
Lemma analysis_row_text_is_not_clause_text :
  let rows_of := fun clauses =>
    match fst (App.analyze_clauses true (RiskAnalyzer.init true None) clauses failing_world) with
    | Returns rows => rows
    | Raised _ => []
    end in
  map Text (rows_of [lit "Payment is due monthly."]) = [lit "Payment is due monthly...."]
  /\ lit "Payment is due monthly...." <> lit "Payment is due monthly."
  /\ length on_one_line = 289
  /\ map (fun row => length (Text row)) (rows_of [on_one_line]) = [103].
Proof.
  cbv zeta. split; [vm_compute; reflexivity|]. split; [discriminate|].
  split; vm_compute; reflexivity.
Qed.

(** C9.  Whatever the provider does, [explain_clause] and
    [suggest_alternative] return a string and send at most one request.
    Without a configured client they return the not-configured message
    and send nothing.  When the one request raises, the string is the
    authentication message for a class name with "AuthenticationError" in
    it, else the rate-limit message for one with "RateLimitError" in it,
    else the generic message that ends with the class name; the four
    messages differ from one another.  The analysis loop therefore ends
    with a row for every clause, each with its own risk level. *)
Theorem provider_failures_degrade (HAS_OPENAI : bool) (self : RiskAnalyzer.t)
  (clause_text : str) (w : World) :
  let auth := Substring (lit "AuthenticationError") in
  let rate := Substring (lit "RateLimitError") in
  (HAS_OPENAI = false \/ client self = None ->
     explain_clause HAS_OPENAI self clause_text w = (Returns msg_not_configured_explain, w)
     /\ suggest_alternative HAS_OPENAI self clause_text w
        = (Returns msg_not_configured_suggest, w))
  /\ (forall c e,
        HAS_OPENAI = true -> client self = Some c ->
        provider w (calls w) (explain_request clause_text) = Raises e ->
        exists text,
          explain_clause HAS_OPENAI self clause_text w
          = (Returns text, after_call w (explain_request clause_text))
          /\ (auth e -> text = msg_auth_failed)
          /\ (~ auth e -> rate e -> text = msg_rate_limit)
          /\ (~ auth e -> ~ rate e -> text = msg_no_explanation e))
  /\ (forall c e,
        HAS_OPENAI = true -> client self = Some c ->
        provider w (calls w) (suggest_request clause_text) = Raises e ->
        exists text,
          suggest_alternative HAS_OPENAI self clause_text w
          = (Returns text, after_call w (suggest_request clause_text))
          /\ (auth e -> text = msg_auth_failed)
          /\ (~ auth e -> rate e -> text = msg_rate_limit)
          /\ (~ auth e -> ~ rate e -> text = msg_no_suggestion e))
  /\ (exists text w',
        explain_clause HAS_OPENAI self clause_text w = (Returns text, w')
        /\ (w' = w \/ w' = after_call w (explain_request clause_text)))
  /\ (exists text w',
        suggest_alternative HAS_OPENAI self clause_text w = (Returns text, w')
        /\ (w' = w \/ w' = after_call w (suggest_request clause_text)))
  /\ (forall e,
        NoDup [msg_not_configured_explain; msg_auth_failed; msg_rate_limit;
               msg_no_explanation e]
        /\ NoDup [msg_not_configured_suggest; msg_auth_failed; msg_rate_limit;
                  msg_no_suggestion e])
  /\ (forall clauses,
        exists rows w',
          App.analyze_clauses HAS_OPENAI self clauses w = (Returns rows, w')
          /\ length rows = length clauses
          /\ map Risk_Level rows = map (assess_clause_risk self) clauses).
Proof.
  intros auth rate.
  assert (Hcases : forall e (a b c : str),
            exists text,
              text = (if contains e (lit "AuthenticationError") then a
                      else if contains e (lit "RateLimitError") then b else c)
              /\ (auth e -> text = a)
              /\ (~ auth e -> rate e -> text = b)
              /\ (~ auth e -> ~ rate e -> text = c)).
  { intros e a b c. unfold auth, rate. eexists. split; [reflexivity|].
    rewrite <- !contains_spec.
    destruct (contains e (lit "AuthenticationError")),
             (contains e (lit "RateLimitError")); intuition congruence. }
  split; [|split; [|split; [|split; [|split; [|split]]]]].
  - intros H.
    assert (E : (if HAS_OPENAI then client self else None) = None).
    { destruct H as [-> | H]; [reflexivity|]. rewrite H. now destruct HAS_OPENAI. }
    split; [now apply explain_clause_unconfigured
           | now apply suggest_alternative_unconfigured].
  - intros c e -> Hc Hp.
    rewrite (explain_clause_configured true self clause_text w c Hc), Hp.
    destruct (Hcases e msg_auth_failed msg_rate_limit (msg_no_explanation e))
      as [text [-> H]]. eauto.
  - intros c e -> Hc Hp.
    rewrite (suggest_alternative_configured true self clause_text w c Hc), Hp.
    destruct (Hcases e msg_auth_failed msg_rate_limit (msg_no_suggestion e))
      as [text [-> H]]. eauto.
  - apply explain_clause_returns.
  - apply suggest_alternative_returns.
  - intros e. split; repeat constructor; simpl;
      intros H; repeat (destruct H as [H|H]; [discriminate H|]); exact H.
  - intros clauses.
    destruct (analyze_from_rows HAS_OPENAI self clauses 0 [] w) as [rows [w' [H HR]]].
    exists rows, w'. split; [exact H|].
    split; [exact (Rows_length _ _ _ _ _ HR) | exact (Rows_levels _ _ _ _ _ HR)].
Qed.

(** A client is configured and every call fails with [RateLimitError]: the
    explanation is the rate-limit message, after exactly one request. *)
Lemma provider_failures_degrade_witness :
  explain_clause true (RiskAnalyzer.init true (Some (lit "sk-test"))) clause1 failing_world
  = (Returns msg_rate_limit, after_call failing_world (explain_request clause1)).
Proof.
  destruct (proj1 (proj2 (provider_failures_degrade true
                            (RiskAnalyzer.init true (Some (lit "sk-test")))
                            clause1 failing_world))
              (mkClient (lit "sk-test")) (lit "RateLimitError")
              eq_refl eq_refl eq_refl) as [text [H [_ [Hr _]]]].
  rewrite H, Hr; [reflexivity | |].
  - intros A. apply contains_spec in A. vm_compute in A. discriminate A.
  - apply contains_spec. vm_compute. reflexivity.
Defined.

(** ** The end-to-end scenario *)

Lemma last_in (A : Type) (l : list A) (d : A) : l <> [] -> In (last l d) l.
Proof.
  intros H. destruct (exists_last H) as [l' [a ->]].
  rewrite last_last. apply in_elt.
Qed.

(** Groups that no colon or semicolon closes are closed by their size. *)
Lemma Grouped_count (sentences : list str) (groups : list (list str)) :
  Forall (fun s => endswith_any s [lit ":"; lit ";"] = false) sentences ->
  Grouped sentences groups ->
  3 * length groups <= length sentences + 2.
Proof.
  intros Hs Hg. induction Hg as [|g Hn _|g rest gs Hn _ Hc _ IH].
  - simpl. lia.
  - destruct g; [contradiction | simpl; lia].
  - apply Forall_app in Hs. destruct Hs as [Hs1 Hs2]. specialize (IH Hs2).
    unfold closes in Hc.
    assert (E : endswith_any (last g []) [lit ":"; lit ";"] = false).
    { rewrite Forall_forall in Hs1. apply Hs1. now apply last_in. }
    rewrite E, orb_false_r in Hc. apply Nat.leb_le in Hc.
    rewrite length_app. simpl. lia.
Qed.

(** C6, as the code has it.  With each of the four numbered clauses on a
    line of its own, the run has exactly four clauses (the first keeps
    its "1. ", which no line break precedes), their levels are High,
    Medium, Low, Low, and the verdict is "Medium Risk", under every
    tokenizer and every provider. *)
Theorem scenario_on_lines_medium_risk (sent_tokenize : str -> list str)
  (HAS_OPENAI : bool) (api_key : option str) (w : World) :
  let analyzer := RiskAnalyzer.init HAS_OPENAI api_key in
  extract_clauses sent_tokenize on_lines
  = [ clause1;
      lit "Confidentiality shall be indefinite and survive the end of this agreement.";
      lit "Payment is due monthly within thirty days of each invoice date.";
      lit "Either party may renew by mutual agreement in writing before expiry." ]
  /\ exists rows w',
       App.analyze_contract sent_tokenize HAS_OPENAI analyzer on_lines w
       = (Returns (rows, lit "Medium Risk"), w')
       /\ length rows = 4
       /\ map Risk_Level rows = [lit "High"; lit "Medium"; lit "Low"; lit "Low"].
Proof.
  intros analyzer.
  assert (Hx : extract_clauses sent_tokenize on_lines
               = [ clause1;
                   lit "Confidentiality shall be indefinite and survive the end of this agreement.";
                   lit "Payment is due monthly within thirty days of each invoice date.";
                   lit "Either party may renew by mutual agreement in writing before expiry." ])
    by (vm_compute; reflexivity).
  split; [exact Hx|].
  unfold App.analyze_contract, App.analyze_clauses. rewrite Hx.
  match goal with
  | |- context [App.analyze_from _ _ _ ?cs _] =>
      destruct (analyze_from_rows HAS_OPENAI analyzer cs 0 [] w) as [rows [w' [H HR]]]
  end.
  exists rows, w'. unfold bind. rewrite H. cbn [app].
  assert (Hl : map Risk_Level rows = [lit "High"; lit "Medium"; lit "Low"; lit "Low"]).
  { rewrite (Rows_levels _ _ _ _ _ HR). vm_compute. reflexivity. }
  split; [|split; [|exact Hl]].
  - unfold ret. rewrite calculate_overall_risk_mean, Hl. reflexivity.
  - now rewrite (Rows_length _ _ _ _ _ HR).
Qed.

(** C6 as stated fails.  On the text as quoted, the clauses on one line,
    no marker pattern occurs at all, so the clauses are whatever groups
    the sentences of the tokenizer fall into.  A tokenizer that cuts the
    text into at most nine sentences, none ending with a colon or a
    semicolon, gives at most three clauses; the one that answers with the
    four numbered clauses gives two. *)
Lemma scenario_on_one_line_is_not_four_clauses :
  forallb (fun p => negb (Re.search p on_one_line)) clause_patterns = true
  /\ (forall sent_tokenize,
        extract_clauses sent_tokenize on_one_line
        = group_sentences (sent_tokenize on_one_line))
  /\ (forall sent_tokenize,
        length (sent_tokenize on_one_line) <= 9 ->
        Forall (fun s => endswith_any s [lit ":"; lit ";"] = false)
               (sent_tokenize on_one_line) ->
        length (extract_clauses sent_tokenize on_one_line) <= 3)
  /\ length (extract_clauses four_sentences on_one_line) = 2.
Proof.
  assert (H : forall sent_tokenize,
             extract_clauses sent_tokenize on_one_line
             = group_sentences (sent_tokenize on_one_line))
    by (intros tok; vm_compute; reflexivity).
  split; [vm_compute; reflexivity|]. split; [exact H|]. split.
  - intros tok Hn Hs. rewrite H.
    destruct (group_sentences_grouped (tok on_one_line)) as [gs [Hg ->]].
    rewrite length_map. pose proof (Grouped_count _ _ Hs Hg). lia.
  - vm_compute. reflexivity.
Qed.

End Pipeline_facts.

(* ================================================================== *)
(** * More on segmentation: what [re.split] keeps, and how many clauses *)
(* ================================================================== *)

Section Segmenter_bounds.
Import Py Re Spec NLPProcessor.

Variable sent_tokenize : str -> list str.

Lemma split_from_skip (p : regex) (t : str) (n : nat) (cur : str) :
  split_from p t n cur = split_from p (skipn n t) 0 cur.
Proof.
  revert n. induction t as [|x t IH]; intros n.
  - now destruct n.
  - destruct n as [|n]; [reflexivity|]. simpl skipn. cbn [split_from]. apply IH.
Qed.

Lemma weave_cons_head (x : ascii) (f : str) (fs seps : list str) :
  weave ((x :: f) :: fs) seps = x :: weave (f :: fs) seps.
Proof. now destruct seps. Qed.

Lemma weave_cons (f m : str) (fs ms : list str) :
  weave (f :: fs) (m :: ms) = f ++ m ++ weave fs ms.
Proof. reflexivity. Qed.

(** The scan from a position on: the running fragment grows into the first
    fragment, and the rest of the text is the fragments woven with the
    markers that were matched. *)
Lemma split_from_weave (p : regex) (n : nat) :
  forall (t cur : str), length t <= n ->
  exists f0 rest seps,
    split_from p t 0 cur = (rev cur ++ f0) :: rest
    /\ length rest = length seps
    /\ weave (f0 :: rest) seps = t
    /\ Forall (fun m => Matches p m /\ m <> []) seps.
Proof.
  induction n as [|n IH]; intros t cur Hn.
  - destruct t; [|simpl in Hn; lia]. exists [], [], [].
    simpl. rewrite app_nil_r. auto.
  - destruct t as [|x t].
    + exists [], [], []. simpl. rewrite app_nil_r. auto.
    + simpl in Hn. cbn [split_from].
      destruct (match_here p (x :: t)) as [[|k]|] eqn:Hm.
      * destruct (IH t (x :: cur)) as [f0 [rest [seps [E [Hl [Hw Hs]]]]]]; [lia|].
        exists (x :: f0), rest, seps. rewrite E. simpl rev. rewrite <- app_assoc.
        repeat split; auto. rewrite weave_cons_head. f_equal. exact Hw.
      * rewrite split_from_skip.
        destruct (IH (skipn k t) []) as [f0 [rest [seps [E [Hl [Hw Hs]]]]]].
        { rewrite length_skipn. lia. }
        destruct (match_here_sound _ _ _ Hm) as [_ HM].
        exists [], (f0 :: rest), (firstn (S k) (x :: t) :: seps).
        rewrite E, app_nil_r. repeat split.
        -- simpl. now rewrite Hl.
        -- rewrite weave_cons. simpl. f_equal.
           transitivity (firstn k t ++ skipn k t); [f_equal; exact Hw | apply firstn_skipn].
        -- constructor; [|exact Hs]. split; [exact HM | discriminate].
      * destruct (IH t (x :: cur)) as [f0 [rest [seps [E [Hl [Hw Hs]]]]]]; [lia|].
        exists (x :: f0), rest, seps. rewrite E. simpl rev. rewrite <- app_assoc.
        repeat split; auto. rewrite weave_cons_head. f_equal. exact Hw.
Qed.

Lemma split_weave (p : regex) (text : str) :
  exists seps,
    length (Re.split p text) = S (length seps)
    /\ weave (Re.split p text) seps = text
    /\ Forall (fun m => Matches p m /\ m <> []) seps.
Proof.
  destruct (split_from_weave p (length text) text [] (le_n _))
    as [f0 [rest [seps [E [Hl [Hw Hs]]]]]].
  exists seps. unfold Re.split. rewrite E. simpl.
  split; [now f_equal | split; [exact Hw | exact Hs]].
Qed.

Lemma weave_substring (fragments seps : list str) (f : str) :
  length fragments = S (length seps) ->
  In f fragments -> Substring f (weave fragments seps).
Proof.
  revert seps. induction fragments as [|g fs IH]; intros seps Hl Hf; [contradiction|].
  destruct seps as [|m ms].
  - destruct fs; [|discriminate]. destruct Hf as [<-|[]].
    exists [], []. simpl. now rewrite app_nil_r.
  - rewrite weave_cons. destruct Hf as [<-|Hf].
    + now exists [], (m ++ weave fs ms).
    + injection Hl as Hl. destruct (IH ms Hl Hf) as [u [v E]].
      exists (g ++ m ++ u), v. rewrite E. now rewrite <- !app_assoc.
Qed.

Lemma Substring_trans (a b c : str) : Substring a b -> Substring b c -> Substring a c.
Proof.
  intros [u [v ->]] [u' [v' ->]]. exists (u' ++ u), (v ++ v').
  now rewrite <- !app_assoc.
Qed.

Lemma lstrip_suffix (s : str) : exists u, s = u ++ lstrip s.
Proof.
  induction s as [|c s [u IH]]; [now exists []|]. simpl.
  destruct (isspace c); [|now exists []].
  exists (c :: u). simpl. now f_equal.
Qed.

Lemma rstrip_prefix (s : str) : exists v, s = rstrip s ++ v.
Proof.
  unfold rstrip. destruct (lstrip_suffix (rev s)) as [u E].
  exists (rev u). rewrite <- rev_app_distr, <- E. now rewrite rev_involutive.
Qed.

Lemma strip_substring (s : str) : Substring (strip s) s.
Proof.
  unfold strip. destruct (lstrip_suffix s) as [u E].
  destruct (rstrip_prefix (lstrip s)) as [v E'].
  exists u, v. rewrite <- E'. exact E.
Qed.

Lemma strip_length (s : str) : length (strip s) <= length s.
Proof.
  destruct (strip_substring s) as [u [v E]].
  rewrite E at 2. rewrite !length_app. lia.
Qed.

Lemma weave_length (fragments seps : list str) :
  length fragments = S (length seps) ->
  list_sum (map (@length ascii) fragments) <= length (weave fragments seps).
Proof.
  revert seps. induction fragments as [|f fs IH]; intros seps Hl; [discriminate|].
  destruct seps as [|m ms].
  - destruct fs; [simpl; lia | discriminate].
  - injection Hl as Hl. specialize (IH ms Hl).
    rewrite weave_cons, !length_app. cbn [map list_sum fold_right].
    unfold list_sum in IH. lia.
Qed.

Lemma survivors_weight (fragments : list str) :
  51 * length (filter (fun fragment => 50 <? length fragment) (map strip fragments))
  <= list_sum (map (@length ascii) fragments).
Proof.
  induction fragments as [|f fs IH]; [simpl; lia|].
  cbn [map filter list_sum fold_right]. pose proof (strip_length f) as Hf.
  unfold list_sum in IH.
  destruct (50 <? length (strip f)) eqn:E.
  - apply Nat.ltb_lt in E. cbn [length]. lia.
  - lia.
Qed.

Lemma survivors_fit (p : regex) (text : str) :
  51 * length (survivors p text) <= length text.
Proof.
  unfold survivors. etransitivity; [apply survivors_weight|].
  destruct (split_weave p text) as [seps [Hl [Hw _]]].
  pose proof (weave_length (Re.split p text) seps Hl) as H.
  rewrite Hw in H. exact H.
Qed.

Lemma survivors_substring (p : regex) (text : str) :
  Forall (fun clause => Substring clause text) (survivors p text).
Proof.
  apply Forall_forall. intros c Hc. apply filter_In in Hc. destruct Hc as [Hc _].
  apply in_map_iff in Hc. destruct Hc as [f [<- Hf]].
  apply (Substring_trans _ f); [apply strip_substring|].
  destruct (split_weave p text) as [seps [Hl [Hw _]]].
  rewrite <- Hw. now apply weave_substring.
Qed.

(** X1.  [re.split] loses nothing but the markers: the fragments, woven
    with the non-empty markers that the pattern matched between them,
    are the text again.  So every clause that comes from the structural
    path is a contiguous piece of the contract text. *)
Theorem structural_clauses_are_pieces (contract_text : str) :
  (forall p,
     exists markers,
       length (Re.split p contract_text) = S (length markers)
       /\ weave (Re.split p contract_text) markers = contract_text
       /\ Forall (fun m => Matches p m /\ m <> []) markers)
  /\ (forall clauses,
        split_by_patterns clause_patterns contract_text = Some clauses ->
        extract_clauses sent_tokenize contract_text = clauses
        /\ Forall (fun clause => Substring clause contract_text) clauses).
Proof.
  split; [intros p; apply split_weave|].
  intros clauses H. split; [unfold extract_clauses; now rewrite H|].
  destruct (split_by_patterns_some _ _ _ H) as [_ [p [_ [_ [_ [_ ->]]]]]].
  apply survivors_substring.
Qed.

(** X2.  A clause of the structural path takes more than 50 characters of
    the text, and clauses do not overlap: the path gives at most one
    clause for every 51 characters, and a text of fewer than 204
    characters always goes to the sentence fallback. *)
Theorem structural_path_needs_length (contract_text : str) :
  (forall clauses,
     split_by_patterns clause_patterns contract_text = Some clauses ->
     51 * length clauses <= length contract_text)
  /\ (length contract_text < 204 ->
      extract_clauses sent_tokenize contract_text
      = group_sentences (sent_tokenize contract_text)).
Proof.
  split.
  - intros clauses H.
    destruct (split_by_patterns_some _ _ _ H) as [_ [p [_ [_ [_ [_ ->]]]]]].
    apply survivors_fit.
  - intros Hl. unfold extract_clauses.
    destruct (split_by_patterns clause_patterns contract_text) as [clauses|] eqn:H;
      [|reflexivity].
    destruct (split_by_patterns_some _ _ _ H) as [_ [p [_ [_ [_ [Hp ->]]]]]].
    pose proof (survivors_fit p contract_text). lia.
Qed.

Lemma split_from_count (p : regex) (t : str) :
  forall skip cur, length (split_from p t skip cur) <= S (occurrences p t).
Proof.
  induction t as [|x t IH]; intros skip cur; [simpl; lia|].
  cbn [split_from occurrences]. destruct skip as [|k].
  - destruct (match_here p (x :: t)) as [[|n]|].
    + specialize (IH 0 (x :: cur)). lia.
    + specialize (IH n []). simpl. lia.
    + specialize (IH 0 (x :: cur)). lia.
  - specialize (IH k cur). lia.
Qed.

Lemma search_false_occurrences (p : regex) (t : str) :
  search p t = false -> occurrences p t = 0.
Proof.
  induction t as [|x t IH]; simpl.
  - now destruct (match_here p []).
  - destruct (match_here p (x :: t)); [discriminate|]. exact IH.
Qed.

(** X3.  A pattern cuts the text into at most one fragment more than it
    has occurrences, and into the text itself when it occurs nowhere.  So
    a pattern with fewer than 3 occurrences is never accepted, and a text
    in which every pattern has fewer than 3 goes to the sentence
    fallback. *)
Theorem few_markers_fall_back (contract_text : str) :
  (forall p, length (Re.split p contract_text) <= S (occurrences p contract_text))
  /\ (forall p, search p contract_text = false -> Re.split p contract_text = [contract_text])
  /\ (forall p, occurrences p contract_text < 3 -> length (survivors p contract_text) <= 3)
  /\ ((forall p, In p clause_patterns -> occurrences p contract_text < 3) ->
      extract_clauses sent_tokenize contract_text
      = group_sentences (sent_tokenize contract_text)).
Proof.
  assert (Hc : forall p, length (Re.split p contract_text) <= S (occurrences p contract_text))
    by (intros p; apply split_from_count).
  assert (Hs : forall p, occurrences p contract_text < 3 ->
                         length (survivors p contract_text) <= 3).
  { intros p Ho. unfold survivors. etransitivity; [apply filter_length_le|].
    rewrite length_map. specialize (Hc p). lia. }
  split; [exact Hc|]. split; [|split; [exact Hs|]].
  - intros p Hp. specialize (Hc p). rewrite (search_false_occurrences _ _ Hp) in Hc.
    destruct (split_weave p contract_text) as [seps [Hl [Hw _]]].
    destruct seps as [|m ms]; [|simpl in Hl; lia].
    destruct (Re.split p contract_text) as [|f [|g fs]]; try discriminate Hl.
    simpl in Hw. now rewrite Hw.
  - intros H. unfold extract_clauses.
    replace (split_by_patterns clause_patterns contract_text) with (@None (list str));
      [reflexivity|].
    symmetry. apply (proj2 (split_by_patterns_none sent_tokenize _ _)).
    apply Forall_forall. intros p Hp. auto.
Qed.

Lemma concat_sizes (groups : list (list str)) :
  Forall (fun g => 1 <= length g <= 3) groups ->
  length groups <= length (concat groups) <= 3 * length groups.
Proof.
  induction 1 as [|g gs Hg _ IH]; simpl; [lia|]. rewrite length_app. lia.
Qed.

(** X4.  The fallback makes at least a third as many clauses as there are
    sentences and at most as many; when no sentence ends with a colon or
    a semicolon it makes exactly the least number, one clause for every
    three sentences and one for what is left. *)
Theorem group_sentences_count (sentences : list str) :
  length (group_sentences sentences) <= length sentences
  /\ length sentences <= 3 * length (group_sentences sentences)
  /\ (Forall (fun s => endswith_any s [lit ":"; lit ";"] = false) sentences ->
      length (group_sentences sentences) = (length sentences + 2) / 3).
Proof.
  destruct (group_sentences_grouped sentences) as [gs [Hg ->]].
  rewrite length_map.
  pose proof (concat_sizes _ (Grouped_sizes _ _ Hg)) as Hc.
  rewrite (Grouped_concat _ _ Hg) in Hc.
  split; [lia|]. split; [lia|].
  intros Hs. pose proof (Grouped_count _ _ Hs Hg) as Hn.
  apply Nat.div_unique with (r := length sentences + 2 - 3 * length gs); lia.
Qed.

End Segmenter_bounds.

Section Segmenter_bounds_examples.
Import Py Re Spec NLPProcessor Scenario.

(** A text of fewer than 204 characters is not cut at its marker. *)
Lemma structural_path_needs_length_witness :
  extract_clauses four_sentences (lit "Terms" ++ ["010"%char] ++ lit "1. Payment is due monthly.")
  = group_sentences
      (four_sentences (lit "Terms" ++ ["010"%char] ++ lit "1. Payment is due monthly.")).
Proof.
  apply (proj2 (structural_path_needs_length four_sentences
                  (lit "Terms" ++ ["010"%char] ++ lit "1. Payment is due monthly."))).
  vm_compute. lia.
Defined.

Lemma few_markers_fall_back_witness :
  extract_clauses four_sentences on_one_line = group_sentences (four_sentences on_one_line).
Proof.
  apply (proj2 (proj2 (proj2 (few_markers_fall_back four_sentences on_one_line)))).
  intros p Hp. repeat (destruct Hp as [<-|Hp]; [vm_compute; lia|]). contradiction.
Defined.

Lemma group_sentences_count_witness :
  length (group_sentences (four_sentences on_one_line))
  = (length (four_sentences on_one_line) + 2) / 3.
Proof.
  apply (proj2 (proj2 (group_sentences_count (four_sentences on_one_line)))).
  repeat constructor.
Defined.

Lemma structural_clauses_are_pieces_witness :
  Forall (fun clause => Substring clause on_lines) (survivors numbered on_lines).
Proof.
  apply (proj2 (structural_clauses_are_pieces four_sentences on_lines)).
  vm_compute. reflexivity.
Defined.

End Segmenter_bounds_examples.

(* ================================================================== *)
(** * More on classification and scoring *)
(* ================================================================== *)

Section Classifier_more.
Import Py Re Spec OpenAI Report RiskAnalyzer.

Lemma Found_substring (p : regex) (a b : str) :
  Substring a b -> Found p a -> Found p b.
Proof.
  intros [u [v ->]] [u' [m [v' [-> Hm]]]].
  exists (u ++ u'), m, (v' ++ v). split; [|exact Hm].
  now rewrite <- !app_assoc.
Qed.

Lemma any_search_grows (patterns : list regex) (a b : str) :
  Substring a b ->
  any_search patterns (lower a) = true -> any_search patterns (lower b) = true.
Proof.
  intros Hs H. apply any_search_spec in H. apply any_search_spec.
  apply Exists_exists in H. destruct H as [p [Hp Hf]].
  apply Exists_exists. exists p. split; [exact Hp|].
  apply (Found_substring p (lower a)); [now apply Substring_lower | exact Hf].
Qed.

(** X5.  More text never lowers the level: when one clause occurs inside
    another, the score of the larger one (3 for High, 2 for Medium, 1 for
    Low) is at least the score of the smaller. *)
Theorem risk_grows_with_text (self : RiskAnalyzer.t) (inner outer : str) :
  Substring inner outer ->
  weight (assess_clause_risk self inner) <= weight (assess_clause_risk self outer).
Proof.
  intros Hs.
  pose proof (any_search_grows (high_risk (risk_patterns self)) _ _ Hs) as Hh.
  pose proof (any_search_grows (medium_risk (risk_patterns self)) _ _ Hs) as Hm.
  unfold assess_clause_risk.
  destruct (any_search (high_risk (risk_patterns self)) (lower inner)).
  - now rewrite Hh.
  - destruct (any_search (high_risk (risk_patterns self)) (lower outer)).
    + destruct (any_search (medium_risk (risk_patterns self)) (lower inner));
        vm_compute; lia.
    + destruct (any_search (medium_risk (risk_patterns self)) (lower inner)).
      * now rewrite Hm.
      * destruct (any_search (medium_risk (risk_patterns self)) (lower outer));
          vm_compute; lia.
Qed.

Lemma risk_grows_with_text_witness :
  weight (assess_clause_risk (RiskAnalyzer.init true None) (lit "without cause"))
  <= weight (assess_clause_risk (RiskAnalyzer.init true None) Scenario.clause1).
Proof.
  apply (risk_grows_with_text (RiskAnalyzer.init true None)
           (lit "without cause") Scenario.clause1).
  apply contains_spec. vm_compute. reflexivity.
Defined.

(** ** The risk breakdown of [app.py] *)

Lemma str_eqb_eq (a b : str) : str_eqb a b = true <-> a = b.
Proof.
  unfold str_eqb. destruct (list_eq_dec ascii_dec a b); split; congruence.
Qed.

Lemma assess_three (self : RiskAnalyzer.t) (clause_text : str) :
  assess_clause_risk self clause_text = lit "High"
  \/ assess_clause_risk self clause_text = lit "Medium"
  \/ assess_clause_risk self clause_text = lit "Low".
Proof.
  destruct (assess_cases self clause_text) as [[_ H] | [[_ [_ H]] | [_ [_ H]]]]; auto.
Qed.

(** The weights of the levels, by the three counters. *)
Lemma weight_by_counts (results : list ClauseAnalysis) :
  list_sum (map weight (map Risk_Level results))
  = length results + 2 * App.high_risk results + App.medium_risk results.
Proof.
  unfold App.high_risk, App.medium_risk, App.count_level.
  induction results as [|r rs IH]; [reflexivity|].
  cbn [map list_sum fold_right filter length]. unfold list_sum in IH. rewrite IH.
  unfold weight, str_eqb.
  destruct (list_eq_dec ascii_dec (Risk_Level r) (lit "High")) as [E|N].
  - rewrite E. simpl. lia.
  - destruct (list_eq_dec ascii_dec (Risk_Level r) (lit "Medium")) as [E|N'];
      simpl; lia.
Qed.

Lemma counts_three (results : list ClauseAnalysis) :
  Forall (fun r => Risk_Level r = lit "High" \/ Risk_Level r = lit "Medium"
                   \/ Risk_Level r = lit "Low") results ->
  App.high_risk results + App.medium_risk results + App.low_risk results
  = length results.
Proof.
  unfold App.high_risk, App.medium_risk, App.low_risk, App.count_level.
  induction 1 as [|r rs Hr _ IH]; [reflexivity|].
  cbn [filter length]. destruct Hr as [E|[E|E]]; rewrite E; simpl in *; lia.
Qed.

(** X6.  The three counters of the risk breakdown count every clause of a
    run once: high + medium + low is the number of clauses, and every row
    has one of the three levels. *)
Theorem risk_breakdown_partitions (HAS_OPENAI : bool) (analyzer : RiskAnalyzer.t)
  (clauses : list str) (w : World) :
  exists rows w',
    App.analyze_clauses HAS_OPENAI analyzer clauses w = (Returns rows, w')
    /\ Forall (fun row => Risk_Level row = lit "High" \/ Risk_Level row = lit "Medium"
                          \/ Risk_Level row = lit "Low") rows
    /\ App.high_risk rows + App.medium_risk rows + App.low_risk rows = length clauses.
Proof.
  destruct (analyze_from_rows HAS_OPENAI analyzer clauses 0 [] w) as [rows [w' [H HR]]].
  exists rows, w'. split; [exact H|].
  assert (Hl : Forall (fun row => Risk_Level row = lit "High"
                                  \/ Risk_Level row = lit "Medium"
                                  \/ Risk_Level row = lit "Low") rows).
  { clear H. induction HR as [|i c cs row rows [_ [_ [Hl _]]] _ IH]; constructor; auto.
    rewrite Hl. apply assess_three. }
  split; [exact Hl|].
  rewrite (counts_three rows Hl). apply (Rows_length _ _ _ _ _ HR).
Qed.

(** X7.  The verdict by the counters.  With n results of which h are High
    and m are Medium (every other level weighs 1), the verdict is "High
    Risk" exactly when there is a result and 4h + 2m >= 3n, "Low Risk"
    exactly when there is none or 4h + 2m < n, and "Medium Risk" in
    between. *)
Theorem verdict_by_counts (self : RiskAnalyzer.t) (results : list ClauseAnalysis) :
  let n := length results in
  let h := App.high_risk results in
  let m := App.medium_risk results in
  (calculate_overall_risk self results = lit "High Risk" <->
     0 < n /\ 3 * n <= 4 * h + 2 * m)
  /\ (calculate_overall_risk self results = lit "Medium Risk" <->
      0 < n /\ n <= 4 * h + 2 * m < 3 * n)
  /\ (calculate_overall_risk self results = lit "Low Risk" <->
      n = 0 \/ 4 * h + 2 * m < n).
Proof.
  intros n h m. rewrite calculate_overall_risk_mean. cbv zeta.
  destruct results as [|r rs].
  - simpl. subst n. simpl. repeat split; try discriminate; try lia; auto.
  - assert (Em : mean (map Risk_Level (r :: rs))
                 = (Z.of_nat (list_sum (map weight (map Risk_Level (r :: rs))))
                    # Pos.of_nat (length (map Risk_Level (r :: rs))))%Q) by reflexivity.
    rewrite Em, weight_by_counts, length_map. fold n h m.
    assert (Hn : 0 < n) by (subst n; simpl; lia).
    assert (En : Zpos (Pos.of_nat n) = Z.of_nat n).
    { destruct n as [|k]; [lia|].
      now rewrite <- Pos.of_nat_succ, Zpos_P_of_succ_nat, Nat2Z.inj_succ. }
    assert (H5 : Qle_bool (5 # 2) (Z.of_nat (n + 2 * h + m) # Pos.of_nat n) = true
                 <-> 3 * n <= 4 * h + 2 * m).
    { rewrite Qle_bool_iff. unfold Qle. cbn [Qnum Qden]. rewrite En. lia. }
    assert (H3 : Qle_bool (3 # 2) (Z.of_nat (n + 2 * h + m) # Pos.of_nat n) = true
                 <-> n <= 4 * h + 2 * m).
    { rewrite Qle_bool_iff. unfold Qle. cbn [Qnum Qden]. rewrite En. lia. }
    destruct (Qle_bool (5 # 2) _); destruct (Qle_bool (3 # 2) _);
      repeat split; try discriminate; intros; try reflexivity; try lia;
      try (exfalso; intuition (congruence || lia)); intuition (congruence || lia).
Qed.

End Classifier_more.

(* ================================================================== *)
(** * More on the provider: what is sent, and what a reply becomes *)
(* ================================================================== *)

Section Provider_more.
Import Py Spec OpenAI Report RiskAnalyzer.

(** A stripped string starts and ends with a character that is no blank. *)
Lemma strip_ends (s : str) (x : ascii) (rest : str) :
  strip s = x :: rest ->
  isspace x = false /\ isspace (last (x :: rest) x) = false.
Proof.
  intros E. split.
  - pose proof (lstrip_head (strip s)) as H.
    assert (L : lstrip (strip s) = strip s) by apply lstrip_rstrip_lstrip.
    now rewrite L, E in H.
  - assert (R : rev (strip s) = lstrip (rev (lstrip s))).
    { unfold strip, rstrip. apply rev_involutive. }
    pose proof (lstrip_head (rev (lstrip s))) as H. rewrite <- R, E in H.
    destruct (exists_last (l := x :: rest)) as [l' [a El]]; [discriminate|].
    rewrite El, rev_app_distr in H. simpl in H. now rewrite El, last_last.
Qed.

(** The requests of a whole run, in the order in which they are sent. *)
Lemma analyze_from_calls (self : RiskAnalyzer.t) (c : Client) (clauses : list str) :
  client self = Some c ->
  forall (i : nat) (results : list ClauseAnalysis) (w : World),
  exists rows,
    App.analyze_from true self i clauses results w
    = (Returns (results ++ rows),
       {| provider := provider w;
          calls := calls w
                   ++ flat_map (fun clause => [explain_request clause;
                                               suggest_request clause]) clauses |}).
Proof.
  intros Hc. induction clauses as [|clause rest IH]; intros i results w.
  - exists []. simpl. unfold ret. rewrite !app_nil_r. now destruct w.
  - cbn [App.analyze_from]. unfold bind at 1.
    rewrite (explain_clause_configured true self clause w c Hc).
    unfold bind at 1.
    rewrite (suggest_alternative_configured true self clause _ c Hc).
    match goal with
    | |- context [App.analyze_from _ _ _ _ (results ++ [?r]) ?w2] =>
        destruct (IH (S i) (results ++ [r]) w2) as [rows Hr]; exists (r :: rows)
    end.
    rewrite Hr. unfold after_call. cbn [provider calls flat_map].
    f_equal; [now rewrite <- app_assoc|]. f_equal. now rewrite <- !app_assoc.
Qed.

Lemma analyze_from_silent (HAS_OPENAI : bool) (self : RiskAnalyzer.t) (clauses : list str) :
  (if HAS_OPENAI then client self else None) = None ->
  forall (i : nat) (results : list ClauseAnalysis) (w : World),
  exists rows,
    App.analyze_from HAS_OPENAI self i clauses results w = (Returns (results ++ rows), w)
    /\ Forall (fun row => Explanation row = msg_not_configured_explain
                          /\ Suggestion row = msg_not_configured_suggest) rows.
Proof.
  intros Hc. induction clauses as [|clause rest IH]; intros i results w.
  - exists []. simpl. unfold ret. rewrite app_nil_r. auto.
  - cbn [App.analyze_from]. unfold bind at 1.
    rewrite (explain_clause_unconfigured HAS_OPENAI self clause w Hc).
    unfold bind at 1.
    rewrite (suggest_alternative_unconfigured HAS_OPENAI self clause w Hc).
    match goal with
    | |- context [App.analyze_from _ _ _ _ (results ++ [?r]) _] =>
        destruct (IH (S i) (results ++ [r]) w) as [rows [Hr Hf]]; exists (r :: rows)
    end.
    rewrite Hr, <- app_assoc. split; [reflexivity|]. constructor; auto.
Qed.

(** X8.  What a run of the application sends.  [app.py] imports the
    provider's library itself, so the analysis runs only where the import
    has succeeded.  The analyzer is then without a client exactly when
    the key is unset or empty.  Without a client the run sends nothing,
    leaves the world as it was, and every row carries the two
    not-configured messages.  With a client it sends exactly two requests
    for each clause, the explanation request and then the suggestion
    request, clause after clause, whatever the provider answers. *)
Theorem analysis_requests (analyzer : RiskAnalyzer.t) (clauses : list str) (w : World) :
  (forall api_key,
     client (RiskAnalyzer.init true api_key) = None
     <-> api_key = None \/ api_key = Some [])
  /\ (client analyzer = None ->
      exists rows,
        App.analyze_clauses true analyzer clauses w = (Returns rows, w)
        /\ length rows = length clauses
        /\ Forall (fun row => Explanation row = msg_not_configured_explain
                              /\ Suggestion row = msg_not_configured_suggest) rows)
  /\ (forall c,
        client analyzer = Some c ->
        exists rows w',
          App.analyze_clauses true analyzer clauses w = (Returns rows, w')
          /\ length rows = length clauses
          /\ provider w' = provider w
          /\ calls w' = calls w
                        ++ flat_map (fun clause => [explain_request clause;
                                                    suggest_request clause]) clauses
          /\ length (calls w') = length (calls w) + 2 * length clauses).
Proof.
  assert (L : forall rows w',
             App.analyze_clauses true analyzer clauses w = (Returns rows, w') ->
             length rows = length clauses).
  { intros rows w' H.
    destruct (analyze_from_rows true analyzer clauses 0 [] w) as [rows0 [w0 [H0 HR]]].
    unfold App.analyze_clauses in H. rewrite H0 in H. injection H as <- _.
    exact (Rows_length _ _ _ _ _ HR). }
  split; [|split].
  - intros [[|x key]|]; simpl; split; intros H; auto; try discriminate;
      destruct H as [H|H]; discriminate.
  - intros H.
    destruct (analyze_from_silent true analyzer clauses H 0 [] w) as [rows [Hr Hf]].
    exists rows. split; [exact Hr|]. split; [exact (L _ _ Hr) | exact Hf].
  - intros c Hc.
    destruct (analyze_from_calls analyzer c clauses Hc 0 [] w) as [rows Hr].
    eexists rows, _. split; [exact Hr|]. split; [exact (L _ _ Hr)|].
    split; [reflexivity|]. split; [reflexivity|].
    cbn [calls]. rewrite length_app. f_equal.
    clear Hr L. induction clauses as [|cl cls IH]; [reflexivity|]. simpl. rewrite IH. lia.
Qed.

(** X9.  What a reply becomes.  With a client, when the provider answers,
    the explanation is the content of the first choice with the blanks at
    both ends taken off; a reply with no choice at all, or with no
    content in its first choice, becomes the generic message naming
    [IndexError] or [AttributeError]; nothing is raised.  The same holds
    for the suggestion. *)
Theorem replies_become_text (self : RiskAnalyzer.t) (c : Client)
  (clause_text : str) (w : World) (choices : list (option str)) :
  client self = Some c ->
  (provider w (calls w) (explain_request clause_text) = Response choices ->
   exists text,
     explain_clause true self clause_text w
     = (Returns text, after_call w (explain_request clause_text))
     /\ (choices = [] -> text = msg_no_explanation (lit "IndexError"))
     /\ (forall more, choices = None :: more ->
                      text = msg_no_explanation (lit "AttributeError"))
     /\ (forall content more, choices = Some content :: more ->
           text = strip content
           /\ forall x rest, text = x :: rest ->
                isspace x = false /\ isspace (last (x :: rest) x) = false))
  /\ (provider w (calls w) (suggest_request clause_text) = Response choices ->
      exists text,
        suggest_alternative true self clause_text w
        = (Returns text, after_call w (suggest_request clause_text))
        /\ (choices = [] -> text = msg_no_suggestion (lit "IndexError"))
        /\ (forall more, choices = None :: more ->
                         text = msg_no_suggestion (lit "AttributeError"))
        /\ (forall content more, choices = Some content :: more ->
              text = strip content
              /\ forall x rest, text = x :: rest ->
                   isspace x = false /\ isspace (last (x :: rest) x) = false)).
Proof.
  intros Hc. split; intros Hp.
  - rewrite (explain_clause_configured true self clause_text w c Hc), Hp.
    eexists. split; [reflexivity|]. split; [|split].
    + now intros ->.
    + now intros more ->.
    + intros content more ->. split; [reflexivity|]. intros x rest E.
      now apply (strip_ends content).
  - rewrite (suggest_alternative_configured true self clause_text w c Hc), Hp.
    eexists. split; [reflexivity|]. split; [|split].
    + now intros ->.
    + now intros more ->.
    + intros content more ->. split; [reflexivity|]. intros x rest E.
      now apply (strip_ends content).
Qed.

End Provider_more.

Section Provider_more_examples.
Import Py Spec OpenAI Report RiskAnalyzer Scenario.

(** Two clauses, a client, and a provider that fails every call: four
    requests go out. *)
Lemma analysis_requests_witness :
  exists rows w',
    App.analyze_clauses true (RiskAnalyzer.init true (Some (lit "sk-test")))
      [clause1; clause2] failing_world = (Returns rows, w')
    /\ calls w' = [explain_request clause1; suggest_request clause1;
                   explain_request clause2; suggest_request clause2].
Proof.
  destruct (proj2 (proj2 (analysis_requests
                            (RiskAnalyzer.init true (Some (lit "sk-test")))
                            [clause1; clause2] failing_world))
              (mkClient (lit "sk-test")) eq_refl)
    as [rows [w' [H [_ [_ [Hc _]]]]]].
  exists rows, w'. split; [exact H | exact Hc].
Defined.

Lemma replies_become_text_witness :
  explain_clause true (RiskAnalyzer.init true (Some (lit "sk-test"))) clause1 answering_world
  = (Returns (lit "The employer may end the contract at will."),
     after_call answering_world (explain_request clause1)).
Proof.
  destruct (proj1 (replies_become_text
                     (RiskAnalyzer.init true (Some (lit "sk-test")))
                     (mkClient (lit "sk-test")) clause1 answering_world
                     [Some (lit "  The employer may end the contract at will. ")]
                     eq_refl) eq_refl)
    as [text [H [_ [_ Hs]]]].
  rewrite H. destruct (Hs _ _ eq_refl) as [-> _]. reflexivity.
Defined.

End Provider_more_examples.

(* ================================================================== *)
(** * Named entities *)
(* ================================================================== *)

Section Entity_facts.
Import Py NLPProcessor.

Variable nlp_ents : str -> list (str * str).



End Entity_facts.

(* ================================================================== *)
(** * The document parser *)
(* ================================================================== *)

Section Chunk_facts.
Import Py.

Variable k : nat.
Hypothesis k_positive : 0 < k.

Lemma firstn_add (A : Type) (a b : nat) (l : list A) :
  firstn (a + b) l = firstn a l ++ firstn b (skipn a l).
Proof.
  revert l. induction a as [|a IH]; intros l; [reflexivity|].
  destruct l as [|x l]; simpl; [now rewrite firstn_nil | now rewrite IH].
Qed.

Lemma slice_step (i : nat) (t : str) : slice i (i + k) t = firstn k (skipn i t).
Proof. unfold slice. now replace (i + k - i) with k by lia. Qed.

(** The number of chunks, and where it puts the end of the text. *)
Lemma chunk_count (n : nat) :
  let m := (n + k - 1) / k in
  n <= m * k /\ (0 < n -> (m - 1) * k < n /\ 0 < m) /\ (n = 0 -> m = 0).
Proof.
  cbv zeta. split; [|split]; [| |intros ->; apply Nat.div_small; lia].
  all: pose proof (Nat.div_mod_eq (n + k - 1) k) as E.
  - pose proof (Nat.mod_upper_bound (n + k - 1) k) as B.
    set (m := (n + k - 1) / k) in *. set (r := (n + k - 1) mod k) in *.
    assert (B' : r < k) by (apply B; lia). nia.
  - pose proof (Nat.mod_upper_bound (n + k - 1) k) as B.
    set (m := (n + k - 1) / k) in *. set (r := (n + k - 1) mod k) in *.
    assert (B' : r < k) by (apply B; lia).
    intros Hn. destruct m as [|m]; [nia|]. simpl. split; [nia | lia].
Qed.

Lemma chunks_concat (t : str) (m : nat) :
  concat (map (fun i => slice i (i + k) t) (map (fun q => q * k) (seq 0 m)))
  = firstn (m * k) t.
Proof.
  induction m as [|m IH]; [reflexivity|].
  rewrite seq_S, !map_app, concat_app, IH. cbn [map concat plus].
  rewrite app_nil_r, slice_step.
  replace (S m * k) with (m * k + k) by lia. now rewrite firstn_add.
Qed.

Lemma chunk_nth (t : str) (m i : nat) (c : str) :
  nth_error (map (fun i => slice i (i + k) t) (map (fun q => q * k) (seq 0 m))) i = Some c ->
  i < m /\ c = firstn k (skipn (i * k) t).
Proof.
  rewrite map_map, nth_error_map, nth_error_seq.
  destruct (i <? m) eqn:Hb; [|discriminate]. apply Nat.ltb_lt in Hb.
  cbn [option_map plus]. intros [= <-]. split; [exact Hb | apply slice_step].
Qed.

(** The chunks of step [k]: they are the text, cut; none is empty, none
    longer than [k], and all before the last are [k] long. *)
Lemma chunks_partition (t : str) :
  let chunks := map (fun i => slice i (i + k) t) (range_step (length t) k) in
  concat chunks = t
  /\ length chunks = (length t + k - 1) / k
  /\ forall i c, nth_error chunks i = Some c ->
       1 <= length c <= k /\ (S i < length chunks -> length c = k).
Proof.
  cbv zeta. unfold range_step.
  destruct (chunk_count (length t)) as [Hup [Hlow Hzero]]. cbv zeta in Hlow, Hzero.
  set (m := (length t + k - 1) / k) in *.
  split; [|split].
  - rewrite chunks_concat. now apply firstn_all2.
  - now rewrite !length_map, length_seq.
  - intros i c Hc. rewrite !length_map, length_seq.
    destruct (chunk_nth t m i c Hc) as [Hi ->].
    rewrite length_firstn, length_skipn.
    assert (Hn : 0 < length t).
    { destruct (Nat.eq_dec (length t) 0) as [Z|Z]; [specialize (Hzero Z); lia | lia]. }
    destruct (Hlow Hn) as [Hl _].
    split; [nia|]. intros Hlast. nia.
Qed.

End Chunk_facts.

Section Parser_facts.
Import Py DocumentParser.
Import OpenAI (Outcome, Returns, Raised).

(** X11.  The chunks that are sent to the translator are the text, cut in
    order: put together they are the text again, there are
    ceil(len / 4000) of them, none is empty or longer than 4000
    characters, and every chunk before the last has exactly 4000. *)
Theorem chunks_of_partition (text : str) :
  concat (chunks_of text) = text
  /\ length (chunks_of text) = (length text + 3999) / 4000
  /\ forall i chunk,
       nth_error (chunks_of text) i = Some chunk ->
       1 <= length chunk <= 4000
       /\ (S i < length (chunks_of text) -> length chunk = 4000).
Proof.
  assert (P : 0 < 4000) by apply Nat.lt_0_succ.
  destruct (chunks_partition 4000 P text) as [Hc [Hl Hn]].
  split; [exact Hc|]. split; [|exact Hn].
  unfold chunks_of. cbv zeta in Hl. rewrite Hl. f_equal. lia.
Qed.

(** The loop over the chunks: every call is made with the texts sent
    before it; the loop ends at the first call that raises, and otherwise
    appends what each call returned. *)
Lemma translate_chunks_run (tr : Translator) (chunks : list str) :
  forall acc sent,
  match translate_chunks tr chunks acc sent with
  | (Returns out, sent') =>
      sent' = sent ++ chunks
      /\ exists new,
           out = acc ++ new /\ length new = length chunks
           /\ forall i chunk,
                nth_error chunks i = Some chunk ->
                exists translated,
                  nth_error new i = Some translated
                  /\ translate tr (sent ++ firstn i chunks) chunk = Returns translated
  | (Raised e, sent') =>
      exists before chunk after,
        chunks = before ++ chunk :: after
        /\ sent' = sent ++ before ++ [chunk]
        /\ translate tr (sent ++ before) chunk = Raised e
        /\ forall i earlier,
             nth_error before i = Some earlier ->
             exists translated,
               translate tr (sent ++ firstn i before) earlier = Returns translated
  end.
Proof.
  induction chunks as [|chunk rest IH]; intros acc sent.
  - simpl. split; [now rewrite app_nil_r|]. exists []. rewrite app_nil_r.
    repeat split. intros [|i] c H; discriminate H.
  - cbn [translate_chunks]. destruct (translate tr sent chunk) as [out|e] eqn:Ht.
    + specialize (IH (acc ++ [out]) (sent ++ [chunk])).
      destruct (translate_chunks tr rest (acc ++ [out]) (sent ++ [chunk])) as [[outs|e] sent'].
      * destruct IH as [-> [new [-> [Hl Hn]]]]. split; [now rewrite <- app_assoc|].
        exists (out :: new). split; [now rewrite <- app_assoc|].
        split; [simpl; now rewrite Hl|].
        intros [|i] c Hc; simpl in Hc.
        -- injection Hc as <-. exists out. split; [reflexivity|].
           simpl. now rewrite app_nil_r.
        -- destruct (Hn i c Hc) as [o [Ho Hto]]. exists o. split; [exact Ho|].
           rewrite <- app_assoc in Hto. exact Hto.
      * destruct IH as [before [c [after [-> [-> [Hr Hn]]]]]].
        exists (chunk :: before), c, after. rewrite <- !app_assoc in *.
        split; [reflexivity|]. split; [reflexivity|]. split; [exact Hr|].
        intros [|i] c' Hc; simpl in Hc.
        -- injection Hc as <-. exists out. simpl. now rewrite app_nil_r.
        -- destruct (Hn i c' Hc) as [o Hto]. exists o.
           rewrite <- app_assoc in Hto. exact Hto.
    + exists [], chunk, rest. rewrite app_nil_r.
      repeat split; auto. intros [|i] c H; discriminate H.
Qed.

(** X12.  Translation never loses the text.  Without a translator nothing
    is sent and the text comes back as it is.  A text of at most 4000
    characters is sent whole, once, and the result is what the translator
    returned, or the text itself when it raised.  A longer text is sent
    chunk by chunk, in order, each call made after the chunks before it.
    When a call raises (all calls before it having returned), no further
    chunk is sent and the original text comes back, the translations so
    far dropped.  When all calls return, the result is what they returned,
    chunk by chunk, joined by single spaces. *)
Theorem translation_falls_back (HAS_TRANSLATOR : bool) (self : DocumentParser.t)
  (text : str) (sent : list str) :
  let result := fst (_translate_hindi_to_english HAS_TRANSLATOR self text sent) in
  let sent' := snd (_translate_hindi_to_english HAS_TRANSLATOR self text sent) in
  (HAS_TRANSLATOR = false \/ translator self = None -> result = text /\ sent' = sent)
  /\ (forall tr,
        HAS_TRANSLATOR = true -> translator self = Some tr -> length text <= 4000 ->
        sent' = sent ++ [text]
        /\ (forall e, translate tr sent text = Raised e -> result = text)
        /\ (forall out, translate tr sent text = Returns out -> result = out))
  /\ (forall tr,
        HAS_TRANSLATOR = true -> translator self = Some tr -> 4000 < length text ->
        (result = text
         /\ exists before chunk after e,
              chunks_of text = before ++ chunk :: after
              /\ sent' = sent ++ before ++ [chunk]
              /\ translate tr (sent ++ before) chunk = Raised e
              /\ forall i earlier,
                   nth_error before i = Some earlier ->
                   exists translated,
                     translate tr (sent ++ firstn i before) earlier = Returns translated)
        \/ (exists translations,
              result = join (lit " ") translations
              /\ length translations = length (chunks_of text)
              /\ sent' = sent ++ chunks_of text
              /\ forall i chunk,
                   nth_error (chunks_of text) i = Some chunk ->
                   exists translated,
                     nth_error translations i = Some translated
                     /\ translate tr (sent ++ firstn i (chunks_of text)) chunk
                        = Returns translated)).
Proof.
  cbv zeta. unfold _translate_hindi_to_english. split; [|split].
  - intros [-> | H]; [now simpl|]. rewrite H. now destruct HAS_TRANSLATOR.
  - intros tr -> -> Hl. apply Nat.ltb_ge in Hl. rewrite Hl.
    destruct (translate tr sent text) as [out|e]; simpl; repeat split; congruence.
  - intros tr -> -> Hl. apply Nat.ltb_lt in Hl. rewrite Hl.
    pose proof (translate_chunks_run tr (chunks_of text) [] sent) as H.
    destruct (translate_chunks tr (chunks_of text) [] sent) as [[outs|e] sent2].
    + right. destruct H as [-> [new [-> [Hn Hi]]]]. exists new. simpl. auto.
    + left. destruct H as [before [c [after [E [-> [Hr Hi]]]]]]. simpl.
      split; [reflexivity|]. exists before, c, after, e. auto.
Qed.

Lemma concat_loop (pages : list str) (text : str) :
  fold_left (fun text page => text ++ page) pages text = text ++ concat pages.
Proof.
  revert text. induction pages as [|page pages IH]; intros text; simpl.
  - now rewrite app_nil_r.
  - now rewrite IH, app_assoc.
Qed.

(** X13.  [parse_file] goes by the end of the file name: ".pdf" gives the
    page texts one after the other with nothing between them, ".docx" the
    paragraphs joined by line breaks, ".txt" the decoded text, and any
    other name, also one that differs only in case, the empty text with
    no error and without looking into the file.  An exception of a reader
    is raised on.  Unless the language is exactly "Hindi" nothing is sent
    to the translator. *)
Theorem parse_file_by_suffix (HAS_TRANSLATOR : bool) (self : DocumentParser.t)
  (file : UploadedFile) (language : str) (sent : list str) :
  language <> lit "Hindi" ->
  let has := fun suffix : string => endswith (name file) (lit suffix) in
  let read := fun (A : Type) (reader : Outcome A) (f : A -> str) =>
    match reader with
    | Returns a => (Returns (f a), sent)
    | Raised e => (Raised e, sent)
    end in
  let result := parse_file HAS_TRANSLATOR self file language sent in
  (has ".pdf"%string = true -> result = read _ (pdf_pages file) (@concat ascii))
  /\ (has ".pdf"%string = false -> has ".docx"%string = true ->
      result = read _ (docx_paragraphs file) (join ["010"%char]))
  /\ (has ".pdf"%string = false -> has ".docx"%string = false -> has ".txt"%string = true ->
      result = read _ (utf8_text file) (fun text => text))
  /\ (has ".pdf"%string = false -> has ".docx"%string = false -> has ".txt"%string = false ->
      result = (Returns [], sent)).
Proof.
  intros Hl. cbv zeta. unfold parse_file.
  destruct (list_eq_dec ascii_dec language (lit "Hindi")) as [E|_]; [contradiction|].
  split; [|split; [|split]].
  - intros ->. unfold _parse_pdf. destruct (pdf_pages file); [|reflexivity].
    now rewrite concat_loop.
  - intros -> ->. unfold _parse_docx. now destruct (docx_paragraphs file).
  - intros -> -> ->. now destruct (utf8_text file).
  - now intros -> -> ->.
Qed.

End Parser_facts.

Section Parser_examples.
Import Py DocumentParser Scenario.
Import OpenAI (Outcome, Returns, Raised).

(** A short text and a translator that raises: the text comes back.  A
    text of 4001 characters and a translator that marks each answer with
    the number of texts it was sent before: two chunks are sent, and the
    result is the two answers with one space between them. *)
Lemma translation_falls_back_witness :
  _translate_hindi_to_english true {| translator := Some failing_translator |}
    (lit "yah anubandh") []
  = (lit "yah anubandh", [lit "yah anubandh"])
  /\ _translate_hindi_to_english true {| translator := Some marking_translator |}
       long_text []
     = (lit "a b*", [repeat "a"%char 4000; lit "b"]).
Proof.
  split.
  - destruct (proj1 (proj2 (translation_falls_back true
                              {| translator := Some failing_translator |}
                              (lit "yah anubandh") []))
                failing_translator eq_refl eq_refl) as [Hs [Hr _]].
    + vm_compute. lia.
    + rewrite (surjective_pairing (_translate_hindi_to_english _ _ _ _)).
      cbv zeta in Hs, Hr. rewrite Hs, (Hr (lit "RequestError") eq_refl). reflexivity.
  - assert (E : chunks_of long_text = [repeat "a"%char 4000; lit "b"])
      by (vm_compute; reflexivity).
    destruct (proj2 (proj2 (translation_falls_back true
                              {| translator := Some marking_translator |}
                              long_text []))
                marking_translator eq_refl eq_refl)
      as [[_ [before [chunk [after [e [_ [_ [Hr _]]]]]]]]
         | [translations [Hres [Hlen [Hsent Hn]]]]].
    + apply Nat.ltb_lt. vm_compute. reflexivity.
    + discriminate Hr.
    + rewrite (surjective_pairing (_translate_hindi_to_english _ _ _ _)).
      rewrite Hres, Hsent. rewrite E in *.
      destruct translations as [|t0 [|t1 [|t2 translations]]]; try discriminate Hlen.
      destruct (Hn 0 _ eq_refl) as [o0 [E0 T0]].
      destruct (Hn 1 _ eq_refl) as [o1 [E1 T1]].
      injection E0 as <-. injection E1 as <-.
      injection T0 as <-. injection T1 as <-.
      vm_compute. reflexivity.
Defined.

(** A file named "Lease.PDF" is no ".pdf" file: its text is empty. *)
Lemma parse_file_by_suffix_witness :
  parse_file true {| translator := Some failing_translator |} upper_case_pdf
    (lit "English") []
  = (Returns [], []).
Proof.
  apply (parse_file_by_suffix true {| translator := Some failing_translator |}
           upper_case_pdf (lit "English") []); [discriminate | reflexivity ..].
Defined.

End Parser_examples.

(* ================================================================== *)
(** * From a .docx file to clauses *)
(* ================================================================== *)

Section Docx_facts.
Import Py Re Spec NLPProcessor DocumentParser.
Import OpenAI (Outcome, Returns, Raised).

(** A greedy repetition takes a whole run when the rest of the pattern
    matches right after it. *)
Lemma greedy_run (cs : charset) (k : str -> option nat) (run r : str) (m : nat) :
  forallb (accepts cs) run = true ->
  match r with [] => True | x :: _ => accepts cs x = false end ->
  k r = Some m ->
  greedy cs k (run ++ r) = Some (length run + m).
Proof.
  intros Hrun Hr Hk. induction run as [|x run IH]; simpl.
  - destruct r as [|y r]; [exact Hk|]. simpl. now rewrite Hr.
  - simpl in Hrun. apply andb_true_iff in Hrun. destruct Hrun as [Hx Hrun].
    now rewrite Hx, (IH Hrun).
Qed.

Lemma numbered_at_marker (n : Numbered) (rest : str) :
  well_numbered n ->
  match_here numbered ("010"%char :: paragraph_of n ++ rest)
  = Some (S (length (digits n) + 2)).
Proof.
  intros [Hne [Hd [Hb _]]]. unfold paragraph_of, numbered.
  destruct (digits n) as [|d ds]; [contradiction|].
  simpl in Hd. apply andb_true_iff in Hd. destruct Hd as [Hd Hds].
  cbn [match_here app]. change (accepts NL "010"%char) with true. cbv iota.
  change (accepts Digit d) with (isdecimal d). rewrite Hd.
  rewrite <- app_assoc.
  rewrite (greedy_run Digit _ ds _ 2 Hds); [reflexivity | reflexivity |].
  cbn [app match_here]. change (accepts (Lit ".") "."%char) with true. cbv iota.
  change (accepts Space (blank n)) with (isspace (blank n)). now rewrite Hb.
Qed.

Lemma numbered_needs_line_break (x : ascii) (t : str) :
  x <> "010"%char -> match_here numbered (x :: t) = None.
Proof.
  intros Hx. unfold numbered. cbn [match_here].
  replace (accepts NL x) with false; [reflexivity|].
  symmetry. unfold accepts, NL. destruct (eqc x "010"%char) eqn:E; [|reflexivity].
  now apply eqc_true in E.
Qed.

Lemma split_plain (b rest cur : str) :
  ~ In "010"%char b ->
  split_from numbered (b ++ rest) 0 cur = split_from numbered rest 0 (rev b ++ cur).
Proof.
  revert cur. induction b as [|x b IH]; intros cur Hb; [reflexivity|].
  cbn [app split_from]. rewrite numbered_needs_line_break.
  - rewrite IH; [|intros H; apply Hb; now right].
    simpl rev. now rewrite <- app_assoc.
  - intros ->. apply Hb. now left.
Qed.

Lemma skip_marker (n : Numbered) (rest : str) :
  skipn (length (digits n) + 2) (paragraph_of n ++ rest) = body n ++ rest.
Proof.
  unfold paragraph_of. rewrite <- app_assoc.
  induction (digits n) as [|d ds IH]; [reflexivity | exact IH].
Qed.

Lemma split_numbered_paragraphs (items : list Numbered) :
  Forall well_numbered items ->
  forall first cur,
    ~ In "010"%char first ->
    split_from numbered
      (first ++ concat (map (fun n => "010"%char :: paragraph_of n) items)) 0 cur
    = (rev cur ++ first) :: map body items.
Proof.
  induction 1 as [|n items Hn _ IH]; intros first cur Hf.
  - simpl. rewrite split_plain by exact Hf. simpl.
    now rewrite rev_app_distr, rev_involutive.
  - cbn [map concat]. rewrite split_plain by exact Hf.
    cbn [app split_from]. rewrite numbered_at_marker by exact Hn.
    rewrite split_from_skip, skip_marker.
    rewrite rev_app_distr, rev_involutive. f_equal.
    destruct Hn as [_ [_ [_ Hb]]]. apply (IH (body n) [] Hb).
Qed.

Lemma join_lines (first : str) (paragraphs : list str) :
  join ["010"%char] (first :: paragraphs)
  = first ++ concat (map (fun p => "010"%char :: p) paragraphs).
Proof.
  revert first. induction paragraphs as [|p ps IH]; intros first.
  - simpl. now rewrite app_nil_r.
  - change (join ["010"%char] (first :: p :: ps))
      with (first ++ ["010"%char] ++ join ["010"%char] (p :: ps)).
    rewrite IH. reflexivity.
Qed.

Lemma docx_is_no_pdf (file_name : str) :
  endswith file_name (lit ".docx") = true -> endswith file_name (lit ".pdf") = false.
Proof.
  unfold endswith. intros H. apply startswith_spec in H. destruct H as [r ->].
  reflexivity.
Qed.

(** X14.  From a ".docx" file to clauses.  When the paragraphs after the
    first are numbered (digits, a dot, a blank, then a body) and no body
    holds a line break, the text of the file is cut at the numbers: the
    fragments are the first paragraph and the bodies, in order.  If more
    than 3 of them are longer than 50 characters after trimming, these
    are the clauses. *)
Theorem docx_numbered_paragraphs (HAS_TRANSLATOR : bool) (self : DocumentParser.t)
  (sent_tokenize : str -> list str) (file : UploadedFile) (language : str)
  (sent : list str) (first : str) (items : list Numbered) :
  language <> lit "Hindi" ->
  endswith (name file) (lit ".docx") = true ->
  docx_paragraphs file = Returns (first :: map paragraph_of items) ->
  ~ In "010"%char first ->
  Forall well_numbered items ->
  exists text,
    parse_file HAS_TRANSLATOR self file language sent = (Returns text, sent)
    /\ Re.split numbered text = first :: map body items
    /\ (3 < length (filter (fun fragment => 50 <? length fragment)
                           (map strip (first :: map body items))) ->
        extract_clauses sent_tokenize text
        = filter (fun fragment => 50 <? length fragment)
                 (map strip (first :: map body items))).
Proof.
  intros Hl Hd Hp Hf Hi.
  exists (join ["010"%char] (first :: map paragraph_of items)).
  assert (Hs : Re.split numbered (join ["010"%char] (first :: map paragraph_of items))
               = first :: map body items).
  { rewrite join_lines, map_map. unfold Re.split.
    now rewrite (split_numbered_paragraphs items Hi first []). }
  split; [|split; [exact Hs|]].
  - unfold parse_file, _parse_docx.
    rewrite (docx_is_no_pdf _ Hd), Hd, Hp.
    now destruct (list_eq_dec ascii_dec language (lit "Hindi")).
  - intros Hacc. unfold extract_clauses, clause_patterns.
    rewrite split_by_patterns_cons. unfold survivors. rewrite Hs.
    destruct (3 <? _) eqn:E; [reflexivity|]. apply Nat.ltb_ge in E.
    exfalso. exact (Nat.lt_irrefl _ (Nat.lt_le_trans _ _ _ Hacc E)).
Qed.

End Docx_facts.

Section Docx_examples.
Import Py Re Spec NLPProcessor DocumentParser Scenario.
Import OpenAI (Outcome, Returns, Raised).

(** A heading and four numbered paragraphs: the clauses are the four
    bodies. *)
Lemma docx_numbered_paragraphs_witness :
  exists text,
    parse_file true {| translator := None |} numbered_docx (lit "English") []
    = (Returns text, [])
    /\ extract_clauses four_sentences text = map body supply_items.
Proof.
  destruct (docx_numbered_paragraphs true {| translator := None |} four_sentences
              numbered_docx (lit "English") [] (lit "SUPPLY AGREEMENT") supply_items)
    as [text [Hp [_ He]]].
  - discriminate.
  - reflexivity.
  - reflexivity.
  - vm_compute. intuition discriminate.
  - repeat constructor; try discriminate; vm_compute; intuition discriminate.
  - exists text. split; [exact Hp|]. rewrite He; [reflexivity | vm_compute; lia].
Defined.

End Docx_examples.

(* ================================================================== *)
(** * The template generator *)
(* ================================================================== *)

Section Template_facts.
Import Py Spec TemplateGenerator.
Import OpenAI (Outcome, Returns, Raised).

Lemma key_eqb_eq (a b : str) : key_eqb a b = true <-> a = b.
Proof. unfold key_eqb. destruct (list_eq_dec ascii_dec a b); split; congruence. Qed.

Lemma lookup_set_item (V : Type) (d : list (str * V)) (k k' : str) (v : V) :
  lookup (set_item d k v) k' = if key_eqb k k' then Some v else lookup d k'.
Proof.
  induction d as [|[k0 v0] d IH]; [reflexivity|].
  cbn [set_item]. destruct (key_eqb k0 k) eqn:E0.
  - apply key_eqb_eq in E0. subst k0. cbn [lookup]. now destruct (key_eqb k k').
  - cbn [lookup]. rewrite IH. destruct (key_eqb k0 k') eqn:E1; [|reflexivity].
    apply key_eqb_eq in E1. subst k'. destruct (key_eqb k k0) eqn:E2; [|reflexivity].
    apply key_eqb_eq in E2. subst k0.
    assert (T : key_eqb k k = true) by now apply key_eqb_eq. congruence.
Qed.

Lemma lookup_missing (V : Type) (d : list (str * V)) (k : str) :
  ~ In k (map fst d) -> lookup d k = None.
Proof.
  induction d as [|[k0 v0] d IH]; [reflexivity|]. intros H. cbn [lookup].
  destruct (key_eqb k0 k) eqn:E.
  - apply key_eqb_eq in E. subst k0. exfalso. apply H. now left.
  - apply IH. intros Hin. apply H. now right.
Qed.

(** [d.update(other)]: the value of [other] where it has the key, the
    value of [d] elsewhere. *)
Lemma lookup_update (V : Type) (other d : list (str * V)) (k : str) :
  NoDup (map fst other) ->
  lookup (update d other) k
  = match lookup other k with Some v => Some v | None => lookup d k end.
Proof.
  unfold update. revert d. induction other as [|[k1 v1] other IH]; intros d Hn;
    [reflexivity|].
  inversion Hn as [|? ? Hk1 Hn']; subst. cbn [fold_left fst snd lookup].
  rewrite (IH _ Hn'), lookup_set_item.
  destruct (key_eqb k1 k) eqn:E; [|reflexivity].
  apply key_eqb_eq in E. subst k1. now rewrite (lookup_missing _ other k Hk1).
Qed.

(** X15.  [generate_template] starts from the default parameters and lets
    the custom ones override them key by key: the template is given, for
    every key, the custom value when there is one and the default value
    otherwise.  With no custom parameters, or an empty dict of them, it
    is given the defaults as they are.  A type that is no key of the
    templates raises [ValueError], and no template is run. *)
Theorem generate_template_merges (self : TemplateGenerator.t) (template_type : str)
  (custom_params : option Params) :
  (lookup (templates self) template_type = None ->
   generate_template self template_type custom_params
   = Raised (lit "ValueError: Template type " ++ quote ++ template_type ++ quote
             ++ lit " not supported"))
  /\ (forall template,
        lookup (templates self) template_type = Some template ->
        custom_params = None \/ custom_params = Some [] ->
        generate_template self template_type custom_params
        = template (default_params self))
  /\ (forall template custom,
        lookup (templates self) template_type = Some template ->
        custom_params = Some custom ->
        NoDup (map fst custom) ->
        exists params,
          generate_template self template_type custom_params = template params
          /\ forall key,
               lookup params key
               = match lookup custom key with
                 | Some value => Some value
                 | None => lookup (default_params self) key
                 end).
Proof.
  unfold generate_template. split; [|split].
  - now intros ->.
  - intros template -> [-> | ->]; reflexivity.
  - intros template custom -> -> Hn. destruct custom as [|kv more].
    + exists (default_params self). split; [reflexivity|]. now intros key.
    + exists (update (default_params self) (kv :: more)). split; [reflexivity|].
      intros key. now apply lookup_update.
Qed.

(** ** The flowables of [export_to_pdf] *)

Lemma split_on_count (sep : ascii) (s : str) :
  length (split_on sep s) = S (count_occ ascii_dec s sep).
Proof.
  induction s as [|c s IH]; [reflexivity|]. cbn [split_on count_occ].
  destruct (eqc c sep) eqn:E.
  - apply eqc_true in E. subst c.
    destruct (ascii_dec sep sep); [simpl; now rewrite IH | contradiction].
  - destruct (ascii_dec c sep) as [->|_].
    + unfold eqc in E. now rewrite Ascii.eqb_refl in E.
    + destruct (split_on sep s); [discriminate IH | exact IH].
Qed.

Lemma split_on_first (sep x : ascii) (s : str) :
  x <> sep -> exists line lines, split_on sep (x :: s) = (x :: line) :: lines.
Proof.
  intros Hx. cbn [split_on]. destruct (eqc x sep) eqn:E.
  - now apply eqc_true in E.
  - destruct (split_on sep s) as [|line lines]; eauto.
Qed.

Lemma split_on_last (sep y : ascii) (s : str) :
  y <> sep -> exists front line, split_on sep (s ++ [y]) = front ++ [line ++ [y]].
Proof.
  intros Hy. induction s as [|c s [front [line IH]]].
  - exists [], []. simpl. destruct (eqc y sep) eqn:E; [now apply eqc_true in E | reflexivity].
  - cbn [app split_on]. rewrite IH. destruct (eqc c sep).
    + now exists ([] :: front), line.
    + destruct front as [|l0 front]; simpl.
      * now exists [], (c :: line).
      * now exists ((c :: l0) :: front), line.
Qed.

Lemma laid_out_visible (line : str) :
  visible line -> exists text style, laid_out line = Paragraph text style.
Proof.
  intros Hv. apply (strip_visible (fun _ => [])) in Hv. unfold laid_out.
  destruct (strip line) as [|c r]; [contradiction|]. eauto.
Qed.

Lemma line_break_is_blank (x : ascii) : isspace x = false -> x <> "010"%char.
Proof. now intros H ->. Qed.

Section Reportlab_facts.

Variable paragraph_error : str -> str -> option str.

(** One turn of the loop, by what the line is and what its paragraph
    does. *)
Lemma flowable_of_cases (line : str) :
  flowable_of paragraph_error line
  = match strip line with
    | [] => Returns (Spacer 1 12)
    | _ :: _ =>
        match paragraph_error (strip line) (style_of line) with
        | None => Returns (laid_out line)
        | Some e => Raised e
        end
    end.
Proof.
  unfold flowable_of, new_paragraph, laid_out, style_of.
  destruct (strip line) as [|c r]; [reflexivity|]. cbv iota.
  now destruct (str_isupper line && (20 <? length (c :: r))).
Qed.

Lemma flowable_of_builds (line : str) :
  builds paragraph_error line ->
  flowable_of paragraph_error line = Returns (laid_out line).
Proof.
  intros H. rewrite flowable_of_cases. unfold builds, laid_out in *.
  destruct (strip line) as [|c r]; [reflexivity|].
  destruct H as [H|H]; [discriminate H|]. now rewrite H.
Qed.

Lemma flowable_of_raises (line e : str) :
  strip line <> [] -> paragraph_error (strip line) (style_of line) = Some e ->
  flowable_of paragraph_error line = Raised e.
Proof.
  intros Hn H. rewrite flowable_of_cases.
  destruct (strip line) as [|c r]; [contradiction|]. now rewrite H.
Qed.

(** The loop ends with one flowable for each line, or with the exception
    of the first line whose paragraph cannot be built. *)
Lemma content_from_run (lines : list str) :
  forall content,
  match content_from paragraph_error lines content with
  | Returns out =>
      Forall (builds paragraph_error) lines /\ out = content ++ map laid_out lines
  | Raised e =>
      exists before line after,
        lines = before ++ line :: after
        /\ Forall (builds paragraph_error) before
        /\ strip line <> []
        /\ paragraph_error (strip line) (style_of line) = Some e
  end.
Proof.
  induction lines as [|line rest IH]; intros content.
  - simpl. split; [constructor | now rewrite app_nil_r].
  - cbn [content_from]. rewrite flowable_of_cases.
    destruct (strip line) as [|c r] eqn:E.
    + specialize (IH (content ++ [Spacer 1 12])).
      destruct (content_from paragraph_error rest (content ++ [Spacer 1 12])) as [out|e].
      * destruct IH as [Hf ->]. split.
        -- constructor; [now left | exact Hf].
        -- cbn [map]. unfold laid_out at 2. rewrite E. now rewrite <- app_assoc.
      * destruct IH as [before [l [after [-> [Hf [Hn He]]]]]].
        exists (line :: before), l, after. repeat split; auto.
        constructor; [now left | exact Hf].
    + destruct (paragraph_error (c :: r) (style_of line)) as [e|] eqn:P.
      * exists [], line, rest. rewrite E. repeat split; auto. discriminate.
      * specialize (IH (content ++ [laid_out line])).
        destruct (content_from paragraph_error rest (content ++ [laid_out line])) as [out|e].
        -- destruct IH as [Hf ->]. split.
           ++ constructor; [right; now rewrite E | exact Hf].
           ++ cbn [map]. now rewrite <- app_assoc.
        -- destruct IH as [before [l [after [-> [Hf [Hn He]]]]]].
           exists (line :: before), l, after. repeat split; auto.
           constructor; [right; now rewrite E | exact Hf].
Qed.

Lemma content_from_builds (lines : list str) :
  Forall (builds paragraph_error) lines ->
  forall content,
    content_from paragraph_error lines content = Returns (content ++ map laid_out lines).
Proof.
  induction 1 as [|line rest Hb _ IH]; intros content; simpl.
  - now rewrite app_nil_r.
  - rewrite (flowable_of_builds line Hb), IH. now rewrite <- app_assoc.
Qed.

Lemma content_from_raises (before after : list str) (line e : str) :
  Forall (builds paragraph_error) before ->
  strip line <> [] -> paragraph_error (strip line) (style_of line) = Some e ->
  forall content,
    content_from paragraph_error (before ++ line :: after) content = Raised e.
Proof.
  intros Hb Hn He. induction Hb as [|l ls Hl _ IH]; intros content; simpl.
  - now rewrite (flowable_of_raises line e Hn He).
  - rewrite (flowable_of_builds l Hl). apply IH.
Qed.

End Reportlab_facts.

(** X16.  What [export_to_pdf] has for the PDF builder when its loop is
    done, reportlab's [Paragraph] being free to refuse a text.  When the
    paragraph of every line that is not blank can be built, the list has
    one flowable for every line of the trimmed template, in order: a
    spacer of 1 by 12 for a blank line, and for every other line a
    paragraph of the trimmed line, never empty, in the title style only
    if the trimmed line is longer than 20 characters; a template with
    anything visible in it then begins and ends with a paragraph.  The
    list is built in no other case: when [Paragraph] raises,
    [export_to_pdf] raises the exception of the first line whose
    paragraph cannot be built, and builds nothing. *)
Theorem pdf_content_shape (paragraph_error : str -> str -> option str)
  (template_content : str) :
  let lines := split_on "010"%char (strip template_content) in
  (Forall (builds paragraph_error) lines ->
   exists content,
     pdf_content paragraph_error template_content = Returns content
     /\ content = map laid_out lines
     /\ length content = S (count_occ ascii_dec (strip template_content) "010"%char)
     /\ Forall (fun flowable =>
                 match flowable with
                 | Spacer width height => width = 1 /\ height = 12
                 | Paragraph text style =>
                     text <> [] /\ strip text = text
                     /\ (style = lit "ContractStyle"
                         \/ style = lit "TitleStyle" /\ 20 < length text)
                 end) content
     /\ (visible template_content ->
         (exists text style rest, content = Paragraph text style :: rest)
         /\ (exists front text style, content = front ++ [Paragraph text style])))
  /\ (forall content,
        pdf_content paragraph_error template_content = Returns content ->
        Forall (builds paragraph_error) lines)
  /\ (forall e,
        pdf_content paragraph_error template_content = Raised e
        <-> exists before line after,
              lines = before ++ line :: after
              /\ Forall (builds paragraph_error) before
              /\ strip line <> []
              /\ paragraph_error (strip line) (style_of line) = Some e).
Proof.
  cbv zeta. unfold pdf_content. split; [|split].
  - intros Hb. rewrite (content_from_builds paragraph_error _ Hb). cbn [app].
    eexists. split; [reflexivity|]. split; [reflexivity|]. split; [|split].
    + now rewrite length_map, split_on_count.
    + apply Forall_map, Forall_forall. intros line _. unfold laid_out, style_of.
      destruct (strip line) as [|c r] eqn:E; [now split|].
      assert (Hs : strip (c :: r) = c :: r) by (rewrite <- E; apply strip_idem).
      destruct (str_isupper line); cbn [andb].
      * destruct (20 <? length (c :: r)) eqn:L.
        -- apply Nat.ltb_lt in L. repeat split; [discriminate | exact Hs | now right].
        -- repeat split; [discriminate | exact Hs | now left].
      * repeat split; [discriminate | exact Hs | now left].
    + intros Hv. apply (strip_visible (fun _ => [])) in Hv.
      destruct (strip template_content) as [|x rest] eqn:E; [contradiction|].
      destruct (strip_ends template_content x rest E) as [Hx Hy]. split.
      * destruct (split_on_first "010"%char x rest (line_break_is_blank x Hx))
          as [line [lines ->]].
        destruct (laid_out_visible (x :: line)) as [text [style Hf]];
          [now left|].
        exists text, style, (map laid_out lines). cbn [map]. now rewrite Hf.
      * destruct (exists_last (l := x :: rest)) as [s [y Es]]; [discriminate|].
        rewrite Es, last_last in Hy. rewrite Es.
        destruct (split_on_last "010"%char y s (line_break_is_blank y Hy))
          as [front [line ->]].
        destruct (laid_out_visible (line ++ [y])) as [text [style Hf]].
        { apply Exists_app. right. now left. }
        exists (map laid_out front), text, style.
        now rewrite map_app, <- Hf.
  - intros content H.
    pose proof (content_from_run paragraph_error
                  (split_on "010"%char (strip template_content)) []) as R.
    rewrite H in R. exact (proj1 R).
  - intros e. split.
    + intros H.
      pose proof (content_from_run paragraph_error
                    (split_on "010"%char (strip template_content)) []) as R.
      rewrite H in R. exact R.
    + intros [before [line [after [-> [Hb [Hn He]]]]]].
      now apply content_from_raises.
Qed.

(** ** The partner sections *)

Lemma section_loop (line : str -> str) (names : list str) (start : str) :
  fold_left (fun text partner => text ++ line partner) names start
  = start ++ concat (map line names).
Proof.
  revert start. induction names as [|p ps IH]; intros start; simpl.
  - now rewrite app_nil_r.
  - now rewrite IH, app_assoc.
Qed.

Lemma count_lines (line : str -> str) (n : nat) (names : list str) :
  Forall (fun p => count_occ ascii_dec (line p) "010"%char = n) names ->
  count_occ ascii_dec (concat (map line names)) "010"%char = n * length names.
Proof.
  induction 1 as [|p ps Hp _ IH]; [simpl; lia|].
  cbn [map concat length]. rewrite count_occ_app, Hp, IH. lia.
Qed.

Lemma in_concat_substring (line : str -> str) (names : list str) (p : str) :
  In p names -> (forall q, Substring q (line q)) ->
  Substring p (concat (map line names)).
Proof.
  intros Hin Hl. induction names as [|q qs IH]; [contradiction|].
  cbn [map concat]. destruct Hin as [->|Hin].
  - destruct (Hl p) as [u [v E]]. exists u, (v ++ concat (map line qs)).
    rewrite E. now rewrite <- !app_assoc.
  - destruct (IH Hin) as [u [v E]]. exists (line q ++ u), v.
    rewrite E. now rewrite <- !app_assoc.
Qed.

(** X17.  The two partner sections of the partnership deed have one entry
    for each partner, in the order given: every name stands in both, and
    when no name holds a line break the contributions have as many line
    breaks as there are partners and the signatures twice as many.  No
    partner gives two empty sections. *)
Theorem partner_sections_one_entry_each (partner_names : list str) :
  Forall (fun partner =>
            Substring partner (_generate_partner_contributions partner_names)
            /\ Substring partner (_generate_partner_signatures partner_names))
         partner_names
  /\ (Forall (fun partner => ~ In "010"%char partner) partner_names ->
      count_occ ascii_dec (_generate_partner_contributions partner_names) "010"%char
      = length partner_names
      /\ count_occ ascii_dec (_generate_partner_signatures partner_names) "010"%char
        = 2 * length partner_names)
  /\ (partner_names = [] ->
      _generate_partner_contributions partner_names = []
      /\ _generate_partner_signatures partner_names = []).
Proof.
  unfold _generate_partner_contributions, _generate_partner_signatures.
  rewrite (section_loop (fun partner => lit "       " ++ partner ++ lit ": " ++ rupee
                           ++ lit "[Amount] ([Percentage]%)" ++ ["010"%char])),
          (section_loop (fun partner => partner ++ lit ": _________________________"
                           ++ ["010"%char; "010"%char])).
  cbn [app]. split; [|split].
  - apply Forall_forall. intros p Hp. split.
    + apply in_concat_substring; [exact Hp|]. intros q.
      exists (lit "       "). eexists. reflexivity.
    + apply in_concat_substring; [exact Hp|]. intros q.
      exists []. eexists. reflexivity.
  - intros Hn. split.
    + rewrite (count_lines _ 1); [lia|].
      eapply Forall_impl; [|exact Hn]. intros p Hp.
      rewrite !count_occ_app. apply (count_occ_not_In ascii_dec) in Hp.
      rewrite Hp. reflexivity.
    + rewrite (count_lines _ 2); [lia|].
      eapply Forall_impl; [|exact Hn]. intros p Hp.
      rewrite !count_occ_app. apply (count_occ_not_In ascii_dec) in Hp.
      rewrite Hp. reflexivity.
  - now intros ->.
Qed.

End Template_facts.

Section Template_examples.
Import Py Spec TemplateGenerator Scenario.
Import OpenAI (Outcome, Returns, Raised).

(** The type "NDA" is no key of the templates ("nda" is): ValueError.  A
    custom company name replaces the default one. *)
Lemma generate_template_merges_witness :
  generate_template sample_generator (lit "NDA") None
  = Raised (lit "ValueError: Template type 'NDA' not supported")
  /\ generate_template sample_generator (lit "nda")
       (Some [(lit "company_name", VStr (lit "Tech Solutions Pvt Ltd"))])
     = Returns (lit "Tech Solutions Pvt Ltd").
Proof.
  split.
  - apply (proj1 (generate_template_merges sample_generator (lit "NDA") None)).
    reflexivity.
  - destruct (proj2 (proj2 (generate_template_merges sample_generator (lit "nda")
                (Some [(lit "company_name", VStr (lit "Tech Solutions Pvt Ltd"))])))
                company_of _ eq_refl eq_refl) as [params [-> Hk]].
    + repeat constructor. intros [].
    + unfold company_of. now rewrite Hk.
Defined.

(** The heading "EMPLOYMENT AGREEMENT" has 20 characters, not more: it is
    set as a paragraph of the body.  With a bold tag that is never closed
    on its second line, a template gives no list at all: the exception
    of that line's paragraph is raised. *)
Lemma pdf_content_shape_witness :
  pdf_content takes_all agreement_head
  = Returns [ Paragraph (lit "EMPLOYMENT AGREEMENT") (lit "ContractStyle");
              Spacer 1 12;
              Paragraph (lit "This Employment Agreement is made on 01 May, 2025")
                        (lit "ContractStyle") ]
  /\ pdf_content refuses_open_bold open_bold = Raised (lit "ValueError").
Proof.
  split.
  - destruct (proj1 (pdf_content_shape takes_all agreement_head))
      as [content [H [E _]]].
    + apply Forall_forall. intros line _. now right.
    + rewrite H, E. vm_compute. reflexivity.
  - apply (proj2 (pdf_content_shape refuses_open_bold open_bold)).
    exists [lit "Fees"], (lit "<b>Late payment"), [lit "Term"].
    split; [vm_compute; reflexivity|].
    split; [repeat constructor; right; vm_compute; reflexivity|].
    split; [vm_compute; discriminate | vm_compute; reflexivity].
Defined.

Lemma partner_sections_one_entry_each_witness :
  count_occ ascii_dec
    (_generate_partner_signatures [lit "Partner A"; lit "Partner B"]) "010"%char = 4.
Proof.
  apply (proj1 (proj2 (partner_sections_one_entry_each [lit "Partner A"; lit "Partner B"]))).
  repeat constructor; vm_compute; intuition discriminate.
Defined.

End Template_examples.
